(** * about:trackers — tracker observation and auto-block engine

    A shallow embedding of [aboutTrackers/lib/main.js]: the content policy
    [shouldLoad], the [http-on-modify-request] observer [unCookier], the
    [about:trackers] port handlers ([set_threshold], [toggle_block],
    [reset]), the reload grace timer and [updateAutoBlock].

    JavaScript values are modelled as the code uses them:
    - [storage.blocked] is an object read and written at single keys: a
      [gmap] from domain to the stored value, which is [undefined], one of
      the two string tags, or a number written by [toggle_block];
    - [storage.trackers] is an object whose keys are enumerated with
      [Object.keys(..).forEach]: an association list in insertion order;
    - [storage.trackers[t]], [allTracked] and the two [domainPrefs] objects
      are used as sets of domains: [gset string]. Their keys are base
      domains, which contain a dot, so no key meets a property inherited
      from [Object.prototype];
    - [storage.autoBlockThreshold] is an integer, in [Z];
    - XPCOM calls that can throw return [option]; the module-level
      variables and [storage] are threaded through a state-and-exception
      monad in which a throw keeps the writes made before it.

    The clean-up run at unload is outside the sessions considered here. *)

From stdpp Require Import base option list gmap strings.
From Stdlib Require Import ZArith Lia.

Open Scope string_scope.
Open Scope Z_scope.

(** ** Values stored in [storage.blocked] *)

(** [storage.blocked[tracker]] holds [undefined] (also when the key is
    absent), [AUTO_BLOCK_COOKIE], [AUTO_BLOCK_CONNECTION], or the number
    [+!x] written by the [toggle_block] handler. *)
Inductive blockedVal : Type :=
  | BUndefined
  | BCookie
  | BConnection
  | BNumber (n : Z).

#[global] Instance blockedVal_eq_dec : EqDecision blockedVal.
Proof. solve_decision. Defined.

Definition AUTO_BLOCK_COOKIE : blockedVal := BCookie.
Definition AUTO_BLOCK_CONNECTION : blockedVal := BConnection.
Definition CONNECTION_MULTIPLIER : Z := 2.
Definition DEFAULT_AUTO_BLOCK_THRESHOLD : Z := 5.
Definition RELOAD_AUTO_ACCEPT_DURATION : Z := 10000.

(** [typeof v == "number"] *)
Definition isNumber (v : blockedVal) : bool :=
  match v with BNumber _ => true | _ => false end.

(** JavaScript truthiness: [undefined] and [0] are falsy, the two
    non-empty strings and every other number are truthy. *)
Definition truthy (v : blockedVal) : bool :=
  match v with
  | BUndefined => false
  | BCookie | BConnection => true
  | BNumber n => negb (n =? 0)
  end.

(** Loose equality [a == b] on these values: [undefined] equals only
    [undefined]; two strings are compared as strings; two numbers as
    numbers; a number against ["cookie"] or ["connection"] compares the
    number with [NaN] and is false. *)
Definition looseEq (a b : blockedVal) : bool :=
  match a, b with
  | BUndefined, BUndefined => true
  | BCookie, BCookie => true
  | BConnection, BConnection => true
  | BNumber m, BNumber n => m =? n
  | _, _ => false
  end.

(** ** JavaScript objects enumerated in insertion order *)

Section Props.
Context {V : Type}.

(** [o[k]], [None] for [undefined] *)
Fixpoint getProp (k : string) (o : list (string * V)) : option V :=
  match o with
  | [] => None
  | (k', v) :: o' => if decide (k = k') then Some v else getProp k o'
  end.

(** [o[k] = v]: an existing key keeps its place, a new key goes last *)
Fixpoint setProp (k : string) (v : V) (o : list (string * V))
  : list (string * V) :=
  match o with
  | [] => [(k, v)]
  | (k', v') :: o' =>
      if decide (k = k') then (k, v) :: o' else (k', v') :: setProp k v o'
  end.

(** [Object.keys(o)] *)
Definition objectKeys (o : list (string * V)) : list string := o.*1.
End Props.

(** ** State *)

(** The persistent [storage], the module-level variables of [main.js], the
    part of the host the code reads (cookie service, timers), and one
    instrumentation field. *)
Record Engine : Type := mkEngine {
  (** [storage.autoBlockThreshold] *)
  autoBlockThreshold : Z;
  (** [storage.blocked] *)
  blocked : gmap string blockedVal;
  (** [storage.trackers]: tracker domain to the set of sites it was seen on *)
  trackers : list (string * gset string);
  (** [allTracked] *)
  allTracked : gset string;
  (** [unCookieNext], [None] for [null] *)
  unCookieNext : option string;
  (** [acceptForReload] *)
  acceptForReload : bool;
  (** [domainPrefs.knownNotTrackers] *)
  knownNotTrackers : gset string;
  (** [domainPrefs.potentialTrackers] *)
  potentialTrackers : gset string;
  (** [Services.cookies.countCookiesFromHost]; [None] when the call throws *)
  countCookiesFromHost : string -> option nat;
  (** host clock in milliseconds *)
  now : Z;
  (** due times of the callbacks registered with [setTimeout] and not yet run *)
  timeouts : list Z;
  (** the ["update_block"] messages emitted on the worker port, newest first *)
  updateBlockSent : list (string * blockedVal);
  (** instrumentation: the (tracker, site) pairs at which [shouldLoad]
      called [updateAutoBlock], newest first *)
  policyRuns : list (string * string);
}.

Definition set_autoBlockThreshold (v : Z) (s : Engine) : Engine :=
  mkEngine v (blocked s) (trackers s) (allTracked s) (unCookieNext s)
    (acceptForReload s) (knownNotTrackers s) (potentialTrackers s)
    (countCookiesFromHost s) (now s) (timeouts s) (updateBlockSent s)
    (policyRuns s).

Definition set_blocked (v : gmap string blockedVal) (s : Engine) : Engine :=
  mkEngine (autoBlockThreshold s) v (trackers s) (allTracked s)
    (unCookieNext s) (acceptForReload s) (knownNotTrackers s)
    (potentialTrackers s) (countCookiesFromHost s) (now s) (timeouts s)
    (updateBlockSent s) (policyRuns s).

Definition set_trackers (v : list (string * gset string)) (s : Engine) : Engine :=
  mkEngine (autoBlockThreshold s) (blocked s) v (allTracked s)
    (unCookieNext s) (acceptForReload s) (knownNotTrackers s)
    (potentialTrackers s) (countCookiesFromHost s) (now s) (timeouts s)
    (updateBlockSent s) (policyRuns s).

Definition set_allTracked (v : gset string) (s : Engine) : Engine :=
  mkEngine (autoBlockThreshold s) (blocked s) (trackers s) v (unCookieNext s)
    (acceptForReload s) (knownNotTrackers s) (potentialTrackers s)
    (countCookiesFromHost s) (now s) (timeouts s) (updateBlockSent s)
    (policyRuns s).

Definition set_unCookieNext (v : option string) (s : Engine) : Engine :=
  mkEngine (autoBlockThreshold s) (blocked s) (trackers s) (allTracked s) v
    (acceptForReload s) (knownNotTrackers s) (potentialTrackers s)
    (countCookiesFromHost s) (now s) (timeouts s) (updateBlockSent s)
    (policyRuns s).

Definition set_acceptForReload (v : bool) (s : Engine) : Engine :=
  mkEngine (autoBlockThreshold s) (blocked s) (trackers s) (allTracked s)
    (unCookieNext s) v (knownNotTrackers s) (potentialTrackers s)
    (countCookiesFromHost s) (now s) (timeouts s) (updateBlockSent s)
    (policyRuns s).

Definition set_knownNotTrackers (v : gset string) (s : Engine) : Engine :=
  mkEngine (autoBlockThreshold s) (blocked s) (trackers s) (allTracked s)
    (unCookieNext s) (acceptForReload s) v (potentialTrackers s)
    (countCookiesFromHost s) (now s) (timeouts s) (updateBlockSent s)
    (policyRuns s).

Definition set_potentialTrackers (v : gset string) (s : Engine) : Engine :=
  mkEngine (autoBlockThreshold s) (blocked s) (trackers s) (allTracked s)
    (unCookieNext s) (acceptForReload s) (knownNotTrackers s) v
    (countCookiesFromHost s) (now s) (timeouts s) (updateBlockSent s)
    (policyRuns s).

Definition set_countCookiesFromHost (v : string -> option nat) (s : Engine) : Engine :=
  mkEngine (autoBlockThreshold s) (blocked s) (trackers s) (allTracked s)
    (unCookieNext s) (acceptForReload s) (knownNotTrackers s)
    (potentialTrackers s) v (now s) (timeouts s) (updateBlockSent s)
    (policyRuns s).

Definition set_now (v : Z) (s : Engine) : Engine :=
  mkEngine (autoBlockThreshold s) (blocked s) (trackers s) (allTracked s)
    (unCookieNext s) (acceptForReload s) (knownNotTrackers s)
    (potentialTrackers s) (countCookiesFromHost s) v (timeouts s)
    (updateBlockSent s) (policyRuns s).

Definition set_timeouts (v : list Z) (s : Engine) : Engine :=
  mkEngine (autoBlockThreshold s) (blocked s) (trackers s) (allTracked s)
    (unCookieNext s) (acceptForReload s) (knownNotTrackers s)
    (potentialTrackers s) (countCookiesFromHost s) (now s) v
    (updateBlockSent s) (policyRuns s).

Definition set_updateBlockSent (v : list (string * blockedVal)) (s : Engine) : Engine :=
  mkEngine (autoBlockThreshold s) (blocked s) (trackers s) (allTracked s)
    (unCookieNext s) (acceptForReload s) (knownNotTrackers s)
    (potentialTrackers s) (countCookiesFromHost s) (now s) (timeouts s) v
    (policyRuns s).

Definition set_policyRuns (v : list (string * string)) (s : Engine) : Engine :=
  mkEngine (autoBlockThreshold s) (blocked s) (trackers s) (allTracked s)
    (unCookieNext s) (acceptForReload s) (knownNotTrackers s)
    (potentialTrackers s) (countCookiesFromHost s) (now s) (timeouts s)
    (updateBlockSent s) v.

(** [storage.blocked[tracker]] *)
Definition getBlocked (s : Engine) (tracker : string) : blockedVal :=
  default BUndefined (blocked s !! tracker).

(** ** Statements: state passing with exceptions *)

Inductive completion (A : Type) : Type :=
  | Normal (a : A)
  | Throw.
Arguments Normal {A} a.
Arguments Throw {A}.

(** A statement runs on the state and either completes with a value or
    throws; either way the state it leaves is the one after the writes it
    made. *)
Definition JS (A : Type) : Type := Engine -> completion A * Engine.

Definition ret {A : Type} (a : A) : JS A := fun s => (Normal a, s).

Definition bind {A B : Type} (m : JS A) (f : A -> JS B) : JS B := fun s =>
  match m s with
  | (Normal a, s') => f a s'
  | (Throw, s') => (Throw, s')
  end.

Declare Scope js_scope.
Delimit Scope js_scope with js.
Bind Scope js_scope with JS.
Notation "x <- m ;; k" := (bind m (fun x => k))
  (at level 100, m at next level, right associativity) : js_scope.
Notation "m ;; k" := (bind m (fun _ => k))
  (at level 100, right associativity) : js_scope.
Open Scope js_scope.

Definition throw {A : Type} : JS A := fun s => (Throw, s).
Definition gets {A : Type} (f : Engine -> A) : JS A := fun s => (Normal (f s), s).
Definition modify (f : Engine -> Engine) : JS unit := fun s => (Normal tt, f s).

(** the value that is there, or the exception raised for want of it: an
    XPCOM call that fails, [Object.keys] or a property read on [undefined] *)
Definition orThrow {A : Type} (r : option A) : JS A :=
  match r with Some a => ret a | None => throw end.

(** ** [isCookied] and [updateAutoBlock] *)

(** [Services.cookies.countCookiesFromHost(tracker) > 0] *)
Definition isCookied (tracker : string) : JS bool :=
  f <- gets countCookiesFromHost ;;
  n <- orThrow (f tracker) ;;
  ret (bool_decide (0 < n)%nat).

(** lines 307-326: the value of [newBlocked] *)
Definition newBlockedFor (tracker : string) : JS blockedVal :=
  cookied <- isCookied tracker ;;
  if cookied then
    (* Object.keys(undefined) is a TypeError *)
    entry <- gets (fun s => getProp tracker (trackers s)) ;;
    sites <- orThrow entry ;;
    let numTracked := Z.of_nat (size (sites : gset string)) in
    threshold <- gets autoBlockThreshold ;;
    if bool_decide (threshold * CONNECTION_MULTIPLIER <= numTracked) then
      visited <- gets (fun s => bool_decide (tracker ∈ allTracked s)) ;;
      if visited then ret AUTO_BLOCK_COOKIE else ret AUTO_BLOCK_CONNECTION
    else if bool_decide (threshold <= numTracked) then
      ret AUTO_BLOCK_COOKIE
    else ret BUndefined
  else ret BUndefined.

(** [updateAutoBlock(tracker)]: returns true if changed *)
Definition updateAutoBlock (tracker : string) : JS bool :=
  oldBlocked <- gets (fun s => getBlocked s tracker) ;;
  if isNumber oldBlocked then ret false
  else
    newBlocked <- newBlockedFor tracker ;;
    if negb (looseEq newBlocked oldBlocked) then
      modify (fun s => set_blocked (<[tracker := newBlocked]> (blocked s)) s);;
      ret true
    else ret false.

(** ** The content policy: [shouldLoad] *)

(** [Ci.nsIContentPolicy.ACCEPT] and [Ci.nsIContentPolicy.REJECT_REQUEST] *)
Inductive verdict : Type := ACCEPT | REJECT_REQUEST.

#[global] Instance verdict_eq_dec : EqDecision verdict.
Proof. solve_decision. Defined.

(** [Ci.nsIContentPolicy.TYPE_DOCUMENT] *)
Definition TYPE_DOCUMENT : Z := 6.

(** What the code reads of [(context.ownerDocument || context).defaultView.top]. *)
Record TopWindow : Type := mkTopWindow {
  (** [privateBrowsing.isPrivate(topWindow)] *)
  isPrivate : bool;
  (** [Services.eTLD.getBaseDomainFromHost(topWindow.location.host)];
      [None] when the call throws *)
  hostBaseDomain : option string;
}.

(** What the code reads of the arguments of [shouldLoad]. *)
Record Request : Type := mkRequest {
  contentType : Z;
  (** [contentLocation.spec] *)
  spec : string;
  (** [Services.eTLD.getBaseDomain(contentLocation)]; [None] when it throws
      (an IP address, a host with too few labels) *)
  baseDomain : option string;
  (** [None] when reaching the top window throws (no context, no view) *)
  topWindow : option TopWindow;
}.

(** lines 115-125: record the context site under the tracker, and run the
    policy when the pair is new; the call of [updateAutoBlock] is logged in
    [policyRuns] *)
Definition shouldLoad_track (trackerDomain contextDomain : string) : JS unit :=
  entry <- gets (fun s => getProp trackerDomain (trackers s)) ;;
  (match entry with
   | None => modify (fun s =>
       set_trackers (setProp trackerDomain ∅ (trackers s)) s)
   | Some _ => ret tt
   end) ;;
  entry <- gets (fun s => getProp trackerDomain (trackers s)) ;;
  sites <- orThrow entry ;;
  if bool_decide (contextDomain ∈ (sites : gset string)) then ret tt
  else
    modify (fun s => set_trackers
      (setProp trackerDomain ({[contextDomain]} ∪ sites) (trackers s)) s) ;;
    modify (fun s => set_allTracked ({[contextDomain]} ∪ allTracked s) s) ;;
    modify (fun s =>
      set_policyRuns ((trackerDomain, contextDomain) :: policyRuns s) s) ;;
    updateAutoBlock trackerDomain ;;
    ret tt.

(** lines 127-136: [Some v] for [return v], [None] when neither branch is
    taken and control leaves the [try] block *)
Definition shouldLoad_block (trackerDomain url : string) : JS (option verdict) :=
  stored <- gets (fun s => getBlocked s trackerDomain) ;;
  potential <- gets (fun s => bool_decide (trackerDomain ∈ potentialTrackers s)) ;;
  if looseEq stored AUTO_BLOCK_COOKIE || potential then
    modify (set_unCookieNext (Some url)) ;;
    ret (Some ACCEPT)
  else if truthy stored then ret (Some REJECT_REQUEST)
  else ret None.

(** lines 91-136, the body of the [try] block *)
Definition shouldLoad_try (r : Request) : JS (option verdict) :=
  if bool_decide (contentType r = TYPE_DOCUMENT) then ret (Some ACCEPT)
  else
    top <- orThrow (topWindow r) ;;
    if isPrivate top then ret (Some ACCEPT)
    else
      trackerDomain <- orThrow (baseDomain r) ;;
      contextDomain <- orThrow (hostBaseDomain top) ;;
      if bool_decide (trackerDomain = contextDomain) then ret (Some ACCEPT)
      else
        known <- gets (fun s => bool_decide (trackerDomain ∈ knownNotTrackers s)) ;;
        if known then ret (Some ACCEPT)
        else
          shouldLoad_track trackerDomain contextDomain ;;
          shouldLoad_block trackerDomain (spec r).

(** [try { body } catch(ex) {}]: a throw is swallowed and control goes on
    after the statement, with the state as the body left it *)
Definition tryCatch {A : Type} (body : JS (option A)) : JS (option A) := fun s =>
  match body s with
  | (Normal r, s') => (Normal r, s')
  | (Throw, s') => (Normal None, s')
  end.

Definition shouldLoad (r : Request) : JS verdict :=
  accept <- gets acceptForReload ;;
  if accept then ret ACCEPT
  else
    returned <- tryCatch (shouldLoad_try r) ;;
    match returned with
    | Some v => ret v
    | None => ret ACCEPT
    end.

(** ** The [http-on-modify-request] observer *)

(** [unCookier({subject})], given [httpChannel.originalURI.spec] (the
    subject of this notification is an HTTP channel); the result tells
    whether [setRequestHeader("cookie", "", false)] was called. *)
Definition unCookier (originalURI : string) : JS bool :=
  next <- gets unCookieNext ;;
  match next with
  | None => ret false
  | Some url =>
      let strip := bool_decide (originalURI = url) in
      modify (set_unCookieNext None) ;;
      ret strip
  end.

(** ** The [about:trackers] port handlers *)

(** [worker.port.emit("update_block", tracker, storage.blocked[tracker])] *)
Definition emit_update_block (tracker : string) : JS unit :=
  modify (fun s =>
    set_updateBlockSent ((tracker, getBlocked s tracker) :: updateBlockSent s) s).

(** the [forEach] of [updateAllAutoBlocked] over the keys taken at its start *)
Fixpoint updateEach (notify : bool) (keys : list string) : JS unit :=
  match keys with
  | [] => ret tt
  | tracker :: rest =>
      changed <- updateAutoBlock tracker ;;
      (if changed && notify then emit_update_block tracker else ret tt) ;;
      updateEach notify rest
  end.

Definition updateAllAutoBlocked (notify : bool) : JS unit :=
  keys <- gets (fun s => objectKeys (trackers s)) ;;
  updateEach notify keys.

(** [worker.port.on("reset", ..)] *)
Definition reset : JS unit :=
  modify (set_autoBlockThreshold DEFAULT_AUTO_BLOCK_THRESHOLD) ;;
  modify (set_blocked ∅) ;;
  updateAllAutoBlocked false.

(** [worker.port.on("set_threshold", ..)] *)
Definition set_threshold (threshold : Z) : JS unit :=
  modify (set_autoBlockThreshold threshold) ;;
  updateAllAutoBlocked true.

(** [worker.port.on("toggle_block", ..)]: [+!storage.blocked[tracker]] *)
Definition toggle_block (tracker : string) : JS unit :=
  modify (fun s =>
    let flipped := BNumber (if truthy (getBlocked s tracker) then 0 else 1) in
    set_blocked (<[tracker := flipped]> (blocked s)) s) ;;
  emit_update_block tracker.

(** ** The reload grace timer *)

(** [onReload(event)]: raise the flag and register a callback due
    [RELOAD_AUTO_ACCEPT_DURATION] from now *)
Definition onReload : JS unit :=
  modify (set_acceptForReload true) ;;
  modify (fun s =>
    set_timeouts (timeouts s ++ [now s + RELOAD_AUTO_ACCEPT_DURATION]) s).

(** the callback given to [setTimeout] *)
Definition onReload_timeout : JS unit :=
  modify (set_acceptForReload false).

(** The host runs, in the order they were registered, the callbacks whose
    due time has come, and forgets them. *)
Fixpoint fireDue (clock : Z) (pending : list Z) : JS unit :=
  match pending with
  | [] => ret tt
  | due :: rest =>
      (if bool_decide (due <= clock) then onReload_timeout else ret tt) ;;
      fireDue clock rest
  end.

Definition elapse (ms : Z) : JS unit :=
  modify (fun s => set_now (now s + ms) s) ;;
  clock <- gets now ;;
  pending <- gets timeouts ;;
  fireDue clock pending ;;
  modify (set_timeouts (filter (fun due => clock < due) pending)).

(** ** Start-up and the events of a session *)

(** The state after [exports.main] on a profile whose [storage] holds the
    given properties ([None] for a property that is [null] or missing). *)
Definition main (threshold : option Z) (blockedStored : option (gmap string blockedVal))
    (trackersStored : option (list (string * gset string)))
    (known potential : gset string) (cookies : string -> option nat) : Engine :=
  let stored := default [] trackersStored in
  {| autoBlockThreshold := default DEFAULT_AUTO_BLOCK_THRESHOLD threshold;
     blocked := default ∅ blockedStored;
     trackers := stored;
     allTracked := ⋃ stored.*2;
     unCookieNext := None;
     acceptForReload := false;
     knownNotTrackers := known;
     potentialTrackers := potential;
     countCookiesFromHost := cookies;
     now := 0;
     timeouts := [];
     updateBlockSent := [];
     policyRuns := [] |}.

Inductive event : Type :=
  | EShouldLoad (r : Request)
  | EModifyRequest (originalURI : string)
  | ESetThreshold (threshold : Z)
  | EToggleBlock (tracker : string)
  | EReset
  | EReload
  | EElapse (ms : Z)
  | ECookies (cookies : string -> option nat)
  | EKnownNotTrackers (domains : gset string)
  | EPotentialTrackers (domains : gset string).

(** The state an event leaves; an exception leaving a port handler is
    reported by the host and the writes made before it stay. *)
Definition step (s : Engine) (e : event) : Engine :=
  match e with
  | EShouldLoad r => (shouldLoad r s).2
  | EModifyRequest u => (unCookier u s).2
  | ESetThreshold v => (set_threshold v s).2
  | EToggleBlock t => (toggle_block t s).2
  | EReset => (reset s).2
  | EReload => (onReload s).2
  | EElapse ms => (elapse ms s).2
  | ECookies f => set_countCookiesFromHost f s
  | EKnownNotTrackers d => set_knownNotTrackers d s
  | EPotentialTrackers d => set_potentialTrackers d s
  end.

Definition run (s : Engine) (events : list event) : Engine :=
  foldl step s events.

(** ** Enforcement levels, as the specification names them *)

Inductive Level : Type := LNone | LCookie | LConnection.
Inductive Origin : Type := Auto | UserSet.

#[global] Instance Level_eq_dec : EqDecision Level.
Proof. solve_decision. Defined.

(** The level a stored value enforces in [shouldLoad]: the string tags are
    themselves; a number, written by the user's toggle, rejects the
    connection when it is truthy and does nothing when it is [0]. *)
Definition levelOf (v : blockedVal) : Level :=
  match v with
  | BUndefined => LNone
  | BCookie => LCookie
  | BConnection => LConnection
  | BNumber n => if n =? 0 then LNone else LConnection
  end.

(** [updateAutoBlock] tells a user-set value by its type. *)
Definition originOf (v : blockedVal) : Origin :=
  if isNumber v then UserSet else Auto.

(** [countSites(tracker)]: the cardinality of the tracker's site set, 0 if absent *)
Definition countSites (s : Engine) (tracker : string) : Z :=
  Z.of_nat (size (default ∅ (getProp tracker (trackers s)))).

(** The auto level as the specification words it, for a cookie presence
    count, a site count [n], the threshold and membership of the
    directly-browsed set. *)
Definition spec_autoLevel (cookieCount : nat) (n threshold : Z) (direct : bool)
    (level : Level) : Prop :=
  let lo := threshold in
  let hi := threshold * 2 in
  (cookieCount = 0%nat -> level = LNone) /\
  (cookieCount <> 0%nat ->
     (hi <= n /\ direct = false -> level = LConnection) /\
     ((hi <= n /\ direct = true) \/ (lo <= n /\ n < hi) -> level = LCookie) /\
     (n < lo -> level = LNone)).

(** The value lines 307-326 leave in [newBlocked], read off the state. *)
Definition newBlockedOf (s : Engine) (tracker : string) : completion blockedVal :=
  match countCookiesFromHost s tracker with
  | None => Throw
  | Some c =>
      if bool_decide (0 < c)%nat then
        match getProp tracker (trackers s) with
        | None => Throw
        | Some sites =>
            let n := Z.of_nat (size sites) in
            Normal
              (if bool_decide (autoBlockThreshold s * CONNECTION_MULTIPLIER <= n)
               then if bool_decide (tracker ∈ allTracked s)
                    then BCookie else BConnection
               else if bool_decide (autoBlockThreshold s <= n)
                    then BCookie else BUndefined)
        end
      else Normal BUndefined
  end.


(** ** Sample sessions *)

(** a third-party request for [url] on [tracker], made by a page of [site]
    in a normal window ([3] is [TYPE_IMAGE]) *)
Definition embedded (tracker site url : string) : Request :=
  {| contentType := 3;
     spec := url;
     baseDomain := Some tracker;
     topWindow := Some {| isPrivate := false; hostBaseDomain := Some site |} |}.

(** the cookie service of a profile in which only [host] has cookies *)
Definition cookiesOnly (host : string) (count : nat) : string -> option nat :=
  fun h => Some (if decide (h = host) then count else 0%nat).

(** a new profile: nothing stored, empty preferences, no cookie anywhere *)
Definition freshProfile : Engine :=
  main None None None ∅ ∅ (fun _ => Some 0%nat).

Definition tenSites : list string :=
  ["s0.example"; "s1.example"; "s2.example"; "s3.example"; "s4.example";
   "s5.example"; "s6.example"; "s7.example"; "s8.example"; "s9.example"].

(** [tracker] is met on each site of the list, in turn *)
Definition metOn (tracker : string) (sites : list string) : list event :=
  (fun site => EShouldLoad (embedded tracker site ("https://" ++ tracker ++ "/px")))
    <$> sites.

(** ** Vocabulary of the statements *)

(** [site] is recorded in the ledger under [tracker] *)
Definition tracked (s : Engine) (tracker site : string) : Prop :=
  exists sites, getProp tracker (trackers s) = Some sites /\ site ∈ sites.

(** the events by which the user sets or clears a block by hand *)
Definition userAction (e : event) : bool :=
  match e with
  | EToggleBlock _ | EReset => true
  | _ => false
  end.

(** the results of [unCookier] on the requests of the list, sent in turn *)
Fixpoint sendAll (urls : list string) (s : Engine) : list (completion bool) :=
  match urls with
  | [] => []
  | url :: rest => (unCookier url s).1 :: sendAll rest (unCookier url s).2
  end.

(** None, then Cookie, then Connection *)
Definition levelRank (l : Level) : Z :=
  match l with LNone => 0 | LCookie => 1 | LConnection => 2 end.

(** The request passes every early return of [shouldLoad], as a request
    for [trackerDomain] from a page of [contextDomain]. *)
Definition thirdParty (s : Engine) (r : Request)
    (trackerDomain contextDomain : string) : Prop :=
  acceptForReload s = false /\
  contentType r <> TYPE_DOCUMENT /\
  (exists top, topWindow r = Some top /\ isPrivate top = false /\
     hostBaseDomain top = Some contextDomain) /\
  baseDomain r = Some trackerDomain /\
  trackerDomain <> contextDomain /\
  trackerDomain ∉ knownNotTrackers s.

(** The state in which [shouldLoad] calls [updateAutoBlock] for a pair
    that the ledger did not have. *)
Definition recorded (tracker site : string) (s : Engine) : Engine :=
  let sites := default ∅ (getProp tracker (trackers s)) in
  set_policyRuns ((tracker, site) :: policyRuns s)
    (set_allTracked ({[site]} ∪ allTracked s)
       (set_trackers (setProp tracker ({[site]} ∪ sites) (trackers s)) s)).

(** the request had its cookie header cleared *)
Definition isStrip (r : completion bool) : bool :=
  match r with Normal true => true | _ => false end.

(** A statement keeps a property of the state: whatever the way it
    completes, the property holds after it if it held before. *)
Definition preserves {A : Type} (P : Engine -> Prop) (m : JS A) : Prop :=
  forall s r s', m s = (r, s') -> P s -> P s'.

(** The policy runs logged so far are for distinct pairs, all of them in
    the ledger. *)
Definition onePolicyRunPerPair (s : Engine) : Prop :=
  NoDup (policyRuns s) /\
  forall tracker site, (tracker, site) ∈ policyRuns s -> tracked s tracker site.

(** With respect to a state [s0]: the policy would compute the same values,
    and each entry of [storage.blocked] is either as in [s0] or, for an
    entry that was not user-set, the value the policy computes. *)
Definition reevaluated (s0 s : Engine) : Prop :=
  (forall t, newBlockedOf s t = newBlockedOf s0 t) /\
  (forall t, getBlocked s t = getBlocked s0 t \/
     (isNumber (getBlocked s0 t) = false /\
      newBlockedOf s0 t = Normal (getBlocked s t))).

(** A session: the threshold is set to 4; [t.example] is met on ten sites
    while it has no cookie; then it has three cookies. *)
Definition lateCookies : Engine :=
  run freshProfile
    ([ESetThreshold 4] ++ metOn "t.example" tenSites
       ++ [ECookies (cookiesOnly "t.example" 3)]).

(** A session: the user reloads, and reloads again five seconds later;
    five more seconds pass. *)
Definition twoReloads : Engine :=
  run freshProfile [EReload; EElapse 5000; EReload; EElapse 5000].

(** A session: [t.example] has three cookies and is met on ten sites. *)
Definition tenSitesCookied : Engine :=
  run freshProfile
    (ECookies (cookiesOnly "t.example" 3) :: metOn "t.example" tenSites).

(** A session: the same tracker, met on the first nine sites only. *)
Definition nineSitesCookied : Engine :=
  run freshProfile
    (ECookies (cookiesOnly "t.example" 3) :: metOn "t.example" (take 9 tenSites)).

(** A session: [t.example], with three cookies, is met on ten sites; then
    the user opens a page of [t.example] itself, which embeds
    [x.example]. *)
Definition browsedAfterConnection : Engine :=
  run tenSitesCookied (metOn "x.example" ["t.example"]).

(** A session: the user blocks [t.example] by hand in a new profile. *)
Definition blockedByHand : Engine :=
  run freshProfile
    [ECookies (cookiesOnly "t.example" 3); EToggleBlock "t.example"].

(** a request whose location has no base domain (an IP address) *)
Definition fromAddress : Request :=
  {| contentType := 3;
     spec := "http://192.0.2.1/px";
     baseDomain := None;
     topWindow := Some {| isPrivate := false; hostBaseDomain := Some "s0.example" |} |}.

(** the load of a top-level document *)
Definition topLevelLoad : Request :=
  {| contentType := TYPE_DOCUMENT;
     spec := "https://t.example/";
     baseDomain := Some "t.example";
     topWindow := Some {| isPrivate := false; hostBaseDomain := Some "t.example" |} |}.

(** A profile whose cookie service fails on every host. *)
Definition cookieServiceDown : Engine :=
  run freshProfile [ECookies (fun _ => None)].

(** ** Further vocabulary *)

(** From [s0] to [s] the ledger lost no pair and [allTracked] no site. *)
Definition ledgerGrows (s0 s : Engine) : Prop :=
  (forall tracker site, tracked s0 tracker site -> tracked s tracker site) /\
  allTracked s0 ⊆ allTracked s.

(** Every site of the ledger is in [allTracked]. *)
Definition sitesVisited (s : Engine) : Prop :=
  forall tracker site, tracked s tracker site -> site ∈ allTracked s.

(** What [shouldLoad] only reads: the threshold, the preferences, the
    cookie service, the clock and timers, the reload flag, and the port. *)
Definition readOnlyToRequests (s : Engine) :=
  (autoBlockThreshold s, knownNotTrackers s, potentialTrackers s,
   countCookiesFromHost s, now s, timeouts s, acceptForReload s,
   updateBlockSent s).

(** No object has two properties of the same name. *)
Definition uniqueKeys (s : Engine) : Prop := NoDup (objectKeys (trackers s)).

#[global] Instance tracked_dec s tracker site : Decision (tracked s tracker site).
Proof.
  unfold tracked. destruct (getProp tracker (trackers s)) as [sites|].
  - destruct (decide (site ∈ sites)); [left; eauto|right].
    by intros (? & [= <-] & ?).
  - right. by intros (? & ? & ?).
Defined.

(** What the policy reads besides the stored value itself. *)
Definition policyInputs (s : Engine) :=
  (autoBlockThreshold s, trackers s, allTracked s, countCookiesFromHost s).

(** The reload flag, the pending timeouts and the clock. *)
Definition timerView (s : Engine) := (acceptForReload s, timeouts s, now s).

(** the time that passes during the events *)
Fixpoint elapsed (events : list event) : Z :=
  match events with
  | [] => 0
  | EElapse ms :: rest => ms + elapsed rest
  | _ :: rest => elapsed rest
  end.

(** an event other than a reload; time does not run backwards *)
Definition noReload (e : event) : Prop :=
  match e with
  | EReload => False
  | EElapse ms => 0 <= ms
  | _ => True
  end.

(** ** Shutdown *)

(** [delete o[k]] *)
Fixpoint deleteProp {V : Type} (k : string) (o : list (string * V))
  : list (string * V) :=
  match o with
  | [] => []
  | (k', v) :: o' =>
      if decide (k = k') then deleteProp k o' else (k', v) :: deleteProp k o'
  end.

(** lines 46-50, the [forEach] over the keys taken at its start *)
Fixpoint unload_each (keys : list string) : JS unit :=
  match keys with
  | [] => ret tt
  | tracker :: rest =>
      entry <- gets (fun s => getProp tracker (trackers s)) ;;
      sites <- orThrow entry ;;
      (if bool_decide (size (sites : gset string) = 1%nat)
       then modify (fun s => set_trackers (deleteProp tracker (trackers s)) s)
       else ret tt) ;;
      unload_each rest
  end.

(** lines 45-51, the function registered with [unload.when]: drop the
    trackers seen on a single site *)
Definition unload_trackers : JS unit :=
  keys <- gets (fun s => objectKeys (trackers s)) ;;
  unload_each keys.

(** the ledger without its single-site trackers *)
Definition withoutSingles (o : list (string * gset string))
  : list (string * gset string) :=
  filter (fun p => size p.2 <> 1%nat) o.

(** The next session of the same profile: [storage] as the clean-up at
    unload left it, the preferences and the cookie service as they are,
    and [main] run anew. *)
Definition restart (s : Engine) : Engine :=
  let stored := (unload_trackers s).2 in
  main (Some (autoBlockThreshold stored)) (Some (blocked stored))
    (Some (trackers stored)) (knownNotTrackers stored)
    (potentialTrackers stored) (countCookiesFromHost stored).

(** ** The domain preferences *)

(** The preference values are taken to hold ASCII characters only, as
    lists of domain names do; on these a character of a Rocq string is a
    code unit of the JavaScript string. *)
Definition asciiOnly (value : string) : Prop :=
  Forall (fun c => (Ascii.nat_of_ascii c < 128)%nat) (String.list_ascii_of_string value).

(** the ASCII characters that [\s] matches and [trim] strips: tab, line
    feed, vertical tab, form feed, carriage return, space *)
Definition isSpace (c : Ascii.ascii) : bool :=
  let n := Ascii.nat_of_ascii c in
  ((9 <=? n)%nat && (n <=? 13)%nat) || (n =? 32)%nat.

(** the comma is character 44 *)
Definition isComma (c : Ascii.ascii) : bool :=
  Ascii.eqb c (Ascii.ascii_of_nat 44).

Fixpoint dropSpaces (l : list Ascii.ascii) : list Ascii.ascii :=
  match l with
  | [] => []
  | c :: l' => if isSpace c then dropSpaces l' else l
  end.

(** [String.prototype.trim] *)
Definition trim (l : list Ascii.ascii) : list Ascii.ascii :=
  reverse (dropSpaces (reverse (dropSpaces l))).

(** [split(/\s*,\s*/)] by a left-to-right scan. [piece] holds, newest
    first, the characters of the piece being read, and [ws] the white
    space just read, which ends the piece if a comma follows and belongs to
    the piece otherwise; [skip] is on after a comma, while the white space
    that follows it is consumed by the separator. *)
Fixpoint splitCommas (skip : bool) (piece ws l : list Ascii.ascii)
  : list (list Ascii.ascii) :=
  match l with
  | [] => [reverse (ws ++ piece)]
  | c :: l' =>
      if isComma c then reverse piece :: splitCommas true [] [] l'
      else if isSpace c then
        if skip then splitCommas true piece ws l'
        else splitCommas false piece (c :: ws) l'
      else splitCommas false (c :: ws ++ piece) [] l'
  end.

(** lines 272-283: the object given to [domainPrefs[pref]] for the value
    of the preference, as the set of its keys *)
Definition domainsOf (value : string) : gset string :=
  let userValue := trim (String.list_ascii_of_string value) in
  match userValue with
  | [] => ∅
  | _ => list_to_set (String.string_of_list_ascii <$> splitCommas false [] [] userValue)
  end.

Inductive domainPref : Type := PrefKnownNotTrackers | PrefPotentialTrackers.

(** [updateDomains()] for [pref], given [Preferences.prefs[pref]] *)
Definition updateDomains (pref : domainPref) (value : string) (s : Engine)
  : Engine :=
  match pref with
  | PrefKnownNotTrackers => set_knownNotTrackers (domainsOf value) s
  | PrefPotentialTrackers => set_potentialTrackers (domainsOf value) s
  end.

(** neither starts nor ends with white space *)
Definition trimmed (l : list Ascii.ascii) : Prop :=
  (forall c, head l = Some c -> isSpace c = false) /\
  (forall c, last l = Some c -> isSpace c = false).

Definition blank (l : list Ascii.ascii) : Prop :=
  Forall (fun c => isSpace c = true) l.

Definition commaFree (l : list Ascii.ascii) : Prop :=
  Forall (fun c => isComma c = false) l.

(** a name as a list of domains holds them: not empty, without white
    space or comma *)
Definition plainName (d : string) : Prop :=
  d <> "" /\
  Forall (fun c => isSpace c = false /\ isComma c = false)
    (String.list_ascii_of_string d).

(** the names of the list with [sep] between them *)
Fixpoint joinWith (sep : string) (ds : list string) : string :=
  match ds with
  | [] => ""
  | [d] => d
  | d :: rest => d ++ sep ++ joinWith sep rest
  end.

(** Every tracker of the ledger has at least one site. *)
Definition noEmptyEntry (s : Engine) : Prop :=
  forall tracker sites,
    getProp tracker (trackers s) = Some sites -> sites <> ∅.

(** ** Further sample sessions *)

(** a new profile in which [t.example] has three cookies *)
Definition cookiedProfile : Engine :=
  step freshProfile (ECookies (cookiesOnly "t.example" 3)).

(** the ten-site session after [t.example] is made a potential tracker *)
Definition potentialSession : Engine :=
  step tenSitesCookied (EPotentialTrackers {["t.example"]}).

(** a request for [t.example] from a page of [s0.example] *)
Definition pixelRequest : Request :=
  embedded "t.example" "s0.example" "https://t.example/px".

(** what happens after a reload in a sample session *)
Definition afterReload : list event :=
  [EElapse 3000; EShouldLoad pixelRequest; EElapse 8000].
(** ** Reading a field after a write *)

Ltac fields :=
  unfold set_autoBlockThreshold, set_blocked, set_trackers, set_allTracked, set_unCookieNext, set_acceptForReload, set_knownNotTrackers, set_potentialTrackers, set_countCookiesFromHost, set_now, set_timeouts, set_updateBlockSent, set_policyRuns in *;
  cbn [autoBlockThreshold blocked trackers allTracked unCookieNext acceptForReload knownNotTrackers potentialTrackers countCookiesFromHost now timeouts updateBlockSent policyRuns] in *.

(** ** Equations of the policy *)

Lemma newBlockedFor_eq tracker s :
  newBlockedFor tracker s = (newBlockedOf s tracker, s).
Proof.
  unfold newBlockedFor, newBlockedOf, isCookied, bind, gets, orThrow, ret, throw.
  destruct (countCookiesFromHost s tracker) as [c|]; simpl; [|done].
  destruct (bool_decide (0 < c)%nat); simpl; [|done].
  destruct (getProp tracker (trackers s)) as [sites|]; simpl; [|done].
  repeat (case_bool_decide; simpl); done.
Qed.

Lemma looseEq_true a b : looseEq a b = true <-> a = b.
Proof.
  destruct a, b; simpl; split; try done; try congruence.
  - intros ?%Z.eqb_eq. by subst.
  - intros [= ->]. apply Z.eqb_refl.
Qed.

Lemma updateAutoBlock_eq tracker s :
  updateAutoBlock tracker s =
    if isNumber (getBlocked s tracker) then (Normal false, s)
    else match newBlockedOf s tracker with
         | Throw => (Throw, s)
         | Normal v =>
             if looseEq v (getBlocked s tracker) then (Normal false, s)
             else (Normal true, set_blocked (<[tracker := v]> (blocked s)) s)
         end.
Proof.
  unfold updateAutoBlock, bind, gets; simpl.
  destruct (isNumber (getBlocked s tracker)); [done|].
  rewrite newBlockedFor_eq.
  destruct (newBlockedOf s tracker) as [v|]; [|done].
  destruct (looseEq v (getBlocked s tracker)); done.
Qed.

Lemma getBlocked_set_eq tracker v s :
  getBlocked (set_blocked (<[tracker := v]> (blocked s)) s) tracker = v.
Proof. unfold getBlocked; simpl. by rewrite lookup_insert_eq. Qed.

Lemma getBlocked_set_ne tracker t v s :
  tracker <> t ->
  getBlocked (set_blocked (<[tracker := v]> (blocked s)) s) t = getBlocked s t.
Proof. intros. unfold getBlocked; simpl. by rewrite lookup_insert_ne. Qed.

(** A completed evaluation of an entry that is not a number leaves in
    [storage.blocked] the value it computed. *)
Lemma updateAutoBlock_stored tracker s changed s' :
  updateAutoBlock tracker s = (Normal changed, s') ->
  isNumber (getBlocked s tracker) = false ->
  newBlockedOf s tracker = Normal (getBlocked s' tracker).
Proof.
  rewrite updateAutoBlock_eq. intros H Hn. rewrite Hn in H.
  destruct (newBlockedOf s tracker) as [v|]; [|done].
  destruct (looseEq v (getBlocked s tracker)) eqn:E.
  - injection H as _ <-. apply looseEq_true in E. by subst.
  - injection H as _ <-. by rewrite getBlocked_set_eq.
Qed.

(** An evaluation completes when the cookie service answers and, for a
    tracker with cookies, the ledger has the tracker. *)
Lemma updateAutoBlock_completes tracker s c :
  countCookiesFromHost s tracker = Some c ->
  c = 0%nat \/ is_Some (getProp tracker (trackers s)) ->
  exists changed s', updateAutoBlock tracker s = (Normal changed, s').
Proof.
  intros Hc Hl. rewrite updateAutoBlock_eq.
  destruct (isNumber (getBlocked s tracker)); [by eauto|].
  unfold newBlockedOf. rewrite Hc.
  case_bool_decide as Hpos.
  - destruct Hl as [->|[sites ->]]; [lia|].
    match goal with |- context [looseEq ?v ?w] => destruct (looseEq v w) end;
      eauto.
  - match goal with |- context [looseEq ?v ?w] => destruct (looseEq v w) end;
      eauto.
Qed.

(** The other entries, and everything but [storage.blocked], are left alone. *)
Lemma updateAutoBlock_frame tracker s r s' :
  updateAutoBlock tracker s = (r, s') ->
  s' = s \/ exists v, s' = set_blocked (<[tracker := v]> (blocked s)) s.
Proof.
  rewrite updateAutoBlock_eq. intros H.
  destruct (isNumber _); [injection H as _ <-; by left|].
  destruct (newBlockedOf s tracker) as [v|]; [|injection H as _ <-; by left].
  destruct (looseEq _ _); injection H as _ <-; [by left|right; eauto].
Qed.

(** ** The auto level computed by the policy *)

(** C1. For a tracker whose stored entry is not user-set, an evaluation of
    the policy completes and leaves an auto entry whose level is the one
    the specification gives: None without cookies, whatever the number of
    sites; with cookies, Connection from twice the threshold on for a
    tracker outside the directly-browsed set and Cookie for one inside it,
    Cookie between the threshold and twice the threshold, None below the
    threshold. *)
Theorem updateAutoBlock_level tracker s c :
  originOf (getBlocked s tracker) = Auto ->
  countCookiesFromHost s tracker = Some c ->
  c = 0%nat \/ is_Some (getProp tracker (trackers s)) ->
  exists changed s',
    updateAutoBlock tracker s = (Normal changed, s') /\
    originOf (getBlocked s' tracker) = Auto /\
    spec_autoLevel c (countSites s tracker) (autoBlockThreshold s)
      (bool_decide (tracker ∈ allTracked s)) (levelOf (getBlocked s' tracker)).
Proof.
  intros Ho Hc Hl.
  assert (isNumber (getBlocked s tracker) = false) as Hn.
  { unfold originOf in Ho. by destruct (isNumber _). }
  destruct (updateAutoBlock_completes tracker s c Hc Hl) as (changed & s' & Hrun).
  exists changed, s'. split; [done|].
  pose proof (updateAutoBlock_stored _ _ _ _ Hrun Hn) as Hv.
  unfold newBlockedOf in Hv. rewrite Hc in Hv.
  unfold spec_autoLevel, countSites, CONNECTION_MULTIPLIER in *.
  case_bool_decide as Hpos.
  - destruct Hl as [->|[sites Hs]]; [lia|]. rewrite Hs in Hv |- *. simpl.
    injection Hv as Hv. rewrite <- Hv.
    repeat case_bool_decide; simpl; (split; [done|]);
      (split; [intros; lia|]); repeat split; intros; try done; lia.
  - injection Hv as Hv. rewrite <- Hv. simpl.
    split; [done|]. split; [done|]. intros; lia.
Qed.

(** C6, amended. An evaluation of the policy for a tracker whose entry is
    not user-set completes, and the entry it stores follows the state at
    that moment: for a tracker then in the directly-browsed set it is
    never Connection, whatever the number of sites; for a tracker with
    cookies, then outside that set and seen on at least twice the
    threshold, it is Connection, not Cookie. *)
Theorem updateAutoBlock_direct_or_connection tracker s c :
  originOf (getBlocked s tracker) = Auto ->
  countCookiesFromHost s tracker = Some c ->
  c = 0%nat \/ is_Some (getProp tracker (trackers s)) ->
  exists changed s',
    updateAutoBlock tracker s = (Normal changed, s') /\
    (tracker ∈ allTracked s -> levelOf (getBlocked s' tracker) <> LConnection) /\
    ((0 < c)%nat ->
     autoBlockThreshold s * CONNECTION_MULTIPLIER <= countSites s tracker ->
     tracker ∉ allTracked s ->
     getBlocked s' tracker = AUTO_BLOCK_CONNECTION /\
     levelOf (getBlocked s' tracker) <> LCookie).
Proof.
  intros Ho Hc Hl.
  assert (isNumber (getBlocked s tracker) = false) as Hn.
  { unfold originOf in Ho. by destruct (isNumber _). }
  destruct (updateAutoBlock_completes tracker s c Hc Hl) as (changed & s' & Hrun).
  exists changed, s'. split; [done|].
  pose proof (updateAutoBlock_stored _ _ _ _ Hrun Hn) as Hv.
  unfold newBlockedOf in Hv. rewrite Hc in Hv.
  unfold countSites. split.
  - intros Hin. destruct (bool_decide (0 < c)%nat);
      [|injection Hv as Hv; by rewrite <- Hv].
    destruct (getProp tracker (trackers s)) as [sites|]; [|done].
    injection Hv as Hv. rewrite <- Hv, (bool_decide_eq_true_2 _ Hin).
    repeat case_bool_decide; done.
  - intros Hpos Hhi Hout. destruct Hl as [->|[sites Hs]]; [lia|].
    rewrite Hs in Hv, Hhi. simpl in Hhi.
    rewrite (bool_decide_eq_true_2 _ Hpos), (bool_decide_eq_true_2 _ Hhi),
      (bool_decide_eq_false_2 _ Hout) in Hv.
    injection Hv as Hv. by rewrite <- Hv.
Qed.

(** ** Properties of objects *)

Lemma getProp_setProp_eq {V} k (v : V) o : getProp k (setProp k v o) = Some v.
Proof.
  induction o as [|[k' v'] o IH]; simpl.
  - by rewrite decide_True.
  - destruct (decide (k = k')); simpl; [by rewrite decide_True|].
    by rewrite decide_False.
Qed.

Lemma getProp_setProp_ne {V} k k' (v : V) o :
  k <> k' -> getProp k' (setProp k v o) = getProp k' o.
Proof.
  intros Hne. induction o as [|[k0 v0] o IH]; simpl.
  - by rewrite decide_False.
  - destruct (decide (k = k0)) as [->|]; simpl.
    + by rewrite !decide_False.
    + by rewrite IH.
Qed.

Lemma objectKeys_getProp {V} k (o : list (string * V)) :
  k ∈ objectKeys o -> is_Some (getProp k o).
Proof.
  unfold objectKeys. induction o as [|[k' v] o IH]; simpl.
  - by intros ?%elem_of_nil.
  - intros Hin. destruct (decide (k = k')); [by eexists|].
    apply elem_of_cons in Hin as [?|?]; [done|by apply IH].
Qed.

Lemma setProp_setProp {V} k (v v' : V) o :
  setProp k v (setProp k v' o) = setProp k v o.
Proof.
  induction o as [|[k0 v0] o IH]; simpl.
  - by rewrite decide_True.
  - destruct (decide (k = k0)) as [->|]; simpl.
    + by rewrite decide_True.
    + by rewrite decide_False, IH.
Qed.

(** ** Anatomy of [shouldLoad] *)

Lemma shouldLoad_track_known tracker site s :
  tracked s tracker site -> shouldLoad_track tracker site s = (Normal tt, s).
Proof.
  intros (sites & Hs & Hin).
  unfold shouldLoad_track, bind, gets, orThrow, ret; simpl.
  rewrite Hs; simpl. rewrite Hs; simpl.
  by rewrite (bool_decide_eq_true_2 _ Hin).
Qed.

Lemma shouldLoad_track_new tracker site s :
  ~ tracked s tracker site ->
  shouldLoad_track tracker site s =
    match updateAutoBlock tracker (recorded tracker site s) with
    | (Normal _, s') => (Normal tt, s')
    | (Throw, s') => (Throw, s')
    end.
Proof.
  intros Hnew.
  unfold shouldLoad_track, recorded, bind, gets, orThrow, ret, modify; simpl.
  destruct (getProp tracker (trackers s)) as [sites|] eqn:Hs; simpl.
  - rewrite Hs; simpl. rewrite bool_decide_eq_false_2; [|by intros ?; apply Hnew; exists sites].
    by destruct (updateAutoBlock _ _) as [[]].
  - rewrite getProp_setProp_eq; simpl.
    rewrite bool_decide_eq_false_2 by set_solver.
    fields. rewrite setProp_setProp.
    by destruct (updateAutoBlock _ _) as [[]].
Qed.

Lemma shouldLoad_block_eq tracker url s :
  shouldLoad_block tracker url s =
    if looseEq (getBlocked s tracker) AUTO_BLOCK_COOKIE
       || bool_decide (tracker ∈ potentialTrackers s)
    then (Normal (Some ACCEPT), set_unCookieNext (Some url) s)
    else if truthy (getBlocked s tracker) then (Normal (Some REJECT_REQUEST), s)
    else (Normal None, s).
Proof.
  unfold shouldLoad_block, bind, gets, modify, ret; simpl.
  destruct (looseEq _ _ || _); [done|]. by destruct (truthy _).
Qed.

(** What [shouldLoad] does with a request that passes the early returns. *)
Lemma shouldLoad_thirdParty r s tracker site :
  thirdParty s r tracker site ->
  shouldLoad r s =
    match shouldLoad_track tracker site s with
    | (Throw, s1) => (Normal ACCEPT, s1)
    | (Normal _, s1) =>
        match shouldLoad_block tracker (spec r) s1 with
        | (Normal (Some v), s2) => (Normal v, s2)
        | (_, s2) => (Normal ACCEPT, s2)
        end
    end.
Proof.
  intros (Hg & Hdoc & (top & Htop & Hpriv & Hhost) & Hbase & Hne & Hknown).
  unfold shouldLoad, tryCatch, shouldLoad_try, bind, gets, orThrow, ret; simpl.
  rewrite Hg, (bool_decide_eq_false_2 _ Hdoc), Htop; simpl.
  rewrite Hpriv, Hbase, Hhost; simpl.
  rewrite (bool_decide_eq_false_2 _ Hne), (bool_decide_eq_false_2 _ Hknown).
  destruct (shouldLoad_track tracker site s) as [[[]|] s1]; [|done].
  by destruct (shouldLoad_block tracker (spec r) s1) as [[[v|]|] s2].
Qed.

(** Any other request is accepted at once, with nothing written. *)
Lemma shouldLoad_cases r s :
  shouldLoad r s = (Normal ACCEPT, s) \/
  exists tracker site, thirdParty s r tracker site.
Proof.
  unfold thirdParty.
  destruct (acceptForReload s) eqn:Hg.
  { left. unfold shouldLoad, bind, gets, ret. by rewrite Hg. }
  destruct (decide (contentType r = TYPE_DOCUMENT)) as [Hdoc|Hdoc].
  { left. unfold shouldLoad, tryCatch, shouldLoad_try, bind, gets, ret.
    by rewrite Hg, (bool_decide_eq_true_2 _ Hdoc). }
  assert (forall body : JS (option verdict),
    shouldLoad_try r = body -> body s = (Throw, s) \/ body s = (Normal (Some ACCEPT), s) ->
    shouldLoad r s = (Normal ACCEPT, s)) as Hquit.
  { intros body Hb Hq. unfold shouldLoad, tryCatch, bind, gets, ret.
    rewrite Hg, Hb. by destruct Hq as [-> | ->]. }
  destruct (topWindow r) as [top|] eqn:Htop; cycle 1.
  { left. apply (Hquit _ eq_refl). left.
    unfold shouldLoad_try, bind, orThrow, throw.
    by rewrite (bool_decide_eq_false_2 _ Hdoc), Htop. }
  destruct (isPrivate top) eqn:Hpriv.
  { left. apply (Hquit _ eq_refl). right.
    unfold shouldLoad_try, bind, orThrow, ret.
    by rewrite (bool_decide_eq_false_2 _ Hdoc), Htop, Hpriv. }
  destruct (baseDomain r) as [tracker|] eqn:Hbase; cycle 1.
  { left. apply (Hquit _ eq_refl). left.
    unfold shouldLoad_try, bind, orThrow, ret, throw.
    by rewrite (bool_decide_eq_false_2 _ Hdoc), Htop, Hpriv, Hbase. }
  destruct (hostBaseDomain top) as [site|] eqn:Hhost; cycle 1.
  { left. apply (Hquit _ eq_refl). left.
    unfold shouldLoad_try, bind, orThrow, ret, throw.
    by rewrite (bool_decide_eq_false_2 _ Hdoc), Htop, Hpriv, Hbase, Hhost. }
  destruct (decide (tracker = site)) as [Heq|Hne].
  { left. apply (Hquit _ eq_refl). right.
    unfold shouldLoad_try, bind, orThrow, ret.
    by rewrite (bool_decide_eq_false_2 _ Hdoc), Htop, Hpriv, Hbase, Hhost,
      (bool_decide_eq_true_2 _ Heq). }
  destruct (decide (tracker ∈ knownNotTrackers s)) as [Hk|Hk].
  { left. apply (Hquit _ eq_refl). right.
    unfold shouldLoad_try, bind, orThrow, gets, ret.
    by rewrite (bool_decide_eq_false_2 _ Hdoc), Htop, Hpriv, Hbase, Hhost,
      (bool_decide_eq_false_2 _ Hne), (bool_decide_eq_true_2 _ Hk). }
  right. exists tracker, site. repeat split; try done. by exists top.
Qed.

Lemma embedded_thirdParty s tracker site url :
  acceptForReload s = false ->
  tracker <> site ->
  tracker ∉ knownNotTrackers s ->
  thirdParty s (embedded tracker site url) tracker site.
Proof.
  intros Hg Hne Hk. repeat split; try done.
  by eexists {| isPrivate := false; hostBaseDomain := Some site |}.
Qed.

Lemma levelOf_cookie v : levelOf v = LCookie <-> looseEq v AUTO_BLOCK_COOKIE = true.
Proof.
  destruct v as [| | |n]; simpl; try (split; congruence).
  destruct (n =? 0); split; congruence.
Qed.

Lemma truthy_level v :
  truthy v = true <-> levelOf v = LCookie \/ levelOf v = LConnection.
Proof.
  destruct v as [| | |n]; simpl; [|tauto|tauto|].
  - split; [done|]. by intros [|].
  - destruct (n =? 0); simpl; [|tauto]. split; [done|]. by intros [|].
Qed.

(** The scenario of the specification: with threshold 5 a tracker that has
    cookies gets Cookie on its ninth site and Connection on its tenth; had
    the user browsed the tracker's own domain before, it stays at Cookie. *)
Example ten_sites_scenario :
  getBlocked nineSitesCookied "t.example" = AUTO_BLOCK_COOKIE /\
  getBlocked tenSitesCookied "t.example" = AUTO_BLOCK_CONNECTION /\
  getBlocked
    (run freshProfile
       (ECookies (cookiesOnly "t.example" 3)
          :: metOn "x.example" ["t.example"] ++ metOn "t.example" tenSites))
    "t.example" = AUTO_BLOCK_COOKIE.
Proof. repeat split; vm_compute; reflexivity. Qed.

(** An entry is refreshed only by an evaluation: a tracker that got
    Connection and is browsed directly afterwards keeps it until its next
    evaluation. *)
Example connection_until_next_evaluation :
  let s := run tenSitesCookied (metOn "x.example" ["t.example"]) in
  bool_decide ("t.example" ∈ allTracked s) = true /\
  getBlocked s "t.example" = AUTO_BLOCK_CONNECTION /\
  getBlocked (set_threshold 5 s).2 "t.example" = AUTO_BLOCK_COOKIE.
Proof. cbv zeta. repeat split; vm_compute; reflexivity. Qed.

(** ** The request pipeline *)

(** C3. A third-party request that reaches the enforcement step, with the
    state [s1] the ledger step left: when the stored level of the tracker
    is Cookie or the tracker is a potential tracker, [unCookieNext] is set
    to the URL of the request and the verdict is ACCEPT; otherwise, when
    the stored level is Connection, the verdict is REJECT_REQUEST and
    nothing is written; otherwise the verdict is ACCEPT and nothing is
    written. *)
Theorem shouldLoad_enforcement r s tracker site s1 :
  thirdParty s r tracker site ->
  shouldLoad_track tracker site s = (Normal tt, s1) ->
  let cookieBlocked :=
    levelOf (getBlocked s1 tracker) = LCookie \/ tracker ∈ potentialTrackers s1 in
  (cookieBlocked ->
     shouldLoad r s = (Normal ACCEPT, set_unCookieNext (Some (spec r)) s1)) /\
  (~ cookieBlocked -> levelOf (getBlocked s1 tracker) = LConnection ->
     shouldLoad r s = (Normal REJECT_REQUEST, s1)) /\
  (~ cookieBlocked -> levelOf (getBlocked s1 tracker) <> LConnection ->
     shouldLoad r s = (Normal ACCEPT, s1)).
Proof.
  intros Hreq Htrack cookieBlocked.
  rewrite (shouldLoad_thirdParty _ _ _ _ Hreq), Htrack, shouldLoad_block_eq.
  assert (cookieBlocked <->
    looseEq (getBlocked s1 tracker) AUTO_BLOCK_COOKIE
      || bool_decide (tracker ∈ potentialTrackers s1) = true) as Hcb.
  { unfold cookieBlocked.
    rewrite orb_true_iff, bool_decide_eq_true, levelOf_cookie. tauto. }
  destruct (looseEq _ _ || _) eqn:E.
  - split; [done|]. split; intros Hn; exfalso; apply Hn, Hcb; done.
  - assert (~ cookieBlocked) as Hno by (rewrite Hcb; congruence).
    split; [done|]. split; intros _ Hl.
    + rewrite (proj2 (truthy_level _)); [done|by right].
    + destruct (truthy (getBlocked s1 tracker)) eqn:Ht; [|done].
      apply truthy_level in Ht as [Hc|Hc]; [|done].
      exfalso. apply Hno. by left.
Qed.

(** C5. When the body of the [try] block throws, at whatever step,
    [shouldLoad] completes normally with ACCEPT, in the state the body had
    reached; and [shouldLoad] never throws. *)
Theorem shouldLoad_fails_open r s s' :
  acceptForReload s = false ->
  shouldLoad_try r s = (Throw, s') ->
  shouldLoad r s = (Normal ACCEPT, s') /\
  (forall r0 s0, exists v, (shouldLoad r0 s0).1 = Normal v).
Proof.
  intros Hg Hthrow. split.
  - unfold shouldLoad, tryCatch, bind, gets, ret. by rewrite Hg, Hthrow.
  - intros r0 s0. unfold shouldLoad, tryCatch, bind, gets, ret.
    destruct (acceptForReload s0); [by eexists|].
    destruct (shouldLoad_try r0 s0) as [[[v|]|] s1]; by eexists.
Qed.

(** A failure inside the policy: the cookie service throws when [shouldLoad]
    evaluates a new pair. The request is accepted and the pair stays
    recorded. *)
Example shouldLoad_cookie_service_down :
  let r := embedded "t.example" "s0.example" "https://t.example/px" in
  (shouldLoad_try r cookieServiceDown).1 = Throw /\
  (shouldLoad r cookieServiceDown).1 = Normal ACCEPT /\
  getProp "t.example" (trackers (shouldLoad r cookieServiceDown).2)
    = Some {["s0.example"]}.
Proof. cbv zeta. repeat split; vm_compute; reflexivity. Qed.

(** C10. A request that leaves [shouldLoad] by an early return (reload
    grace flag raised, top-level document, private window, same base
    domain as the page, known not-tracker) is accepted and the whole state
    is as before: ledger, [allTracked], [storage.blocked] and
    [unCookieNext] included. *)
Theorem shouldLoad_early_accept r s :
  acceptForReload s = true \/
  contentType r = TYPE_DOCUMENT \/
  (exists top, topWindow r = Some top /\ isPrivate top = true) \/
  (exists top domain, topWindow r = Some top /\
     baseDomain r = Some domain /\ hostBaseDomain top = Some domain) \/
  (exists domain, baseDomain r = Some domain /\ domain ∈ knownNotTrackers s) ->
  shouldLoad r s = (Normal ACCEPT, s).
Proof.
  intros Hearly.
  destruct (shouldLoad_cases r s) as [Hdone|(tracker & site & Hreq)]; [done|].
  exfalso.
  destruct Hreq as (Hg & Hdoc & (top & Htop & Hpriv & Hhost) & Hbase & Hne & Hk).
  destruct Hearly as [Hg'|[Hdoc'|[(top' & Htop' & Hpriv')|
    [(top' & d & Htop' & Hbase' & Hhost')|(d & Hbase' & Hk')]]]].
  - congruence.
  - done.
  - congruence.
  - rewrite Htop in Htop'. injection Htop' as <-. congruence.
  - rewrite Hbase in Hbase'. injection Hbase' as <-. done.
Qed.

(** ** The single pending suppression *)

Lemma unCookier_eq url s :
  unCookier url s =
    match unCookieNext s with
    | None => (Normal false, s)
    | Some armed => (Normal (bool_decide (url = armed)), set_unCookieNext None s)
    end.
Proof. unfold unCookier, bind, gets, modify, ret. by destruct (unCookieNext s). Qed.

Lemma unCookier_clears url s : unCookieNext (unCookier url s).2 = None.
Proof. rewrite unCookier_eq. by destruct (unCookieNext s) eqn:E. Qed.

Lemma sendAll_unarmed urls s :
  unCookieNext s = None -> List.filter isStrip (sendAll urls s) = [].
Proof.
  revert s. induction urls as [|url urls IH]; intros s Hs; [done|].
  simpl. rewrite (IH _ (unCookier_clears url s)).
  rewrite unCookier_eq, Hs. done.
Qed.

(** C4. [unCookier] clears the cookie header exactly when a URL is pending
    and equals the URL of the request, and leaves [unCookieNext] null in
    every case; hence of the requests sent after one arming at most one is
    stripped, and after arming with [u1] a request for another URL is not
    stripped and neither is a later request for [u1]. *)
Theorem unCookier_consume s requestUrl :
  (exists strip,
     (unCookier requestUrl s).1 = Normal strip /\
     (strip = true <-> unCookieNext s = Some requestUrl)) /\
  unCookieNext (unCookier requestUrl s).2 = None /\
  (forall urls, (length (List.filter isStrip (sendAll urls s)) <= 1)%nat) /\
  (forall u1 u2, u2 <> u1 ->
     let armed := set_unCookieNext (Some u1) s in
     (unCookier u2 armed).1 = Normal false /\
     unCookieNext (unCookier u2 armed).2 = None /\
     (unCookier u1 (unCookier u2 armed).2).1 = Normal false).
Proof.
  split; [|split; [apply unCookier_clears|split]].
  - rewrite unCookier_eq. destruct (unCookieNext s) as [armed|]; simpl.
    + exists (bool_decide (requestUrl = armed)). split; [done|].
      rewrite bool_decide_eq_true. split; [by intros ->|by intros [= ->]].
    + exists false. done.
  - intros [|url urls]; simpl; [lia|].
    rewrite (sendAll_unarmed _ _ (unCookier_clears url s)).
    destruct (isStrip _); simpl; lia.
  - intros u1 u2 Hne armed. split; [|split].
    + rewrite unCookier_eq. simpl. by rewrite (bool_decide_eq_false_2 _ Hne).
    + apply unCookier_clears.
    + rewrite (unCookier_eq u1), unCookier_clears. done.
Qed.

(** ** Properties kept by statements *)

Section Preserves.
Context (P : Engine -> Prop).

Lemma preserves_ret {A} (a : A) : preserves P (ret a).
Proof. intros s r s' [= _ <-]. done. Qed.

Lemma preserves_throw {A} : preserves P (@throw A).
Proof. intros s r s' [= _ <-]. done. Qed.

Lemma preserves_gets {A} (f : Engine -> A) : preserves P (gets f).
Proof. intros s r s' [= _ <-]. done. Qed.

Lemma preserves_orThrow {A} (o : option A) : preserves P (orThrow o).
Proof. destruct o; [apply preserves_ret|apply preserves_throw]. Qed.

Lemma preserves_modify (f : Engine -> Engine) :
  (forall s, P s -> P (f s)) -> preserves P (modify f).
Proof. intros Hf s r s' [= _ <-]. auto. Qed.

Lemma preserves_bind {A B} (m : JS A) (f : A -> JS B) :
  preserves P m -> (forall a, preserves P (f a)) -> preserves P (bind m f).
Proof.
  intros Hm Hf s r s'. unfold bind.
  destruct (m s) as [[a|] s1] eqn:E.
  - intros Hrun HP. eapply Hf; [done|]. by eapply Hm.
  - intros [= _ <-] HP. by eapply Hm.
Qed.

Lemma preserves_tryCatch {A} (body : JS (option A)) :
  preserves P body -> preserves P (tryCatch body).
Proof.
  intros Hb s r s'. unfold tryCatch.
  destruct (body s) as [[a|] s1] eqn:E; intros [= _ <-] HP; by eapply Hb.
Qed.

Lemma preserves_if {A} (b : bool) (m1 m2 : JS A) :
  preserves P m1 -> preserves P m2 -> preserves P (if b then m1 else m2).
Proof. by destruct b. Qed.
End Preserves.

(** Break a statement into its parts; what is left are the writes and the
    calls to other functions. *)
Ltac keeps :=
  repeat match goal with
    | |- preserves _ (ret _) => apply preserves_ret
    | |- preserves _ throw => apply preserves_throw
    | |- preserves _ (gets _) => apply preserves_gets
    | |- preserves _ (orThrow _) => apply preserves_orThrow
    | |- preserves _ (bind _ _) => apply preserves_bind; [|intros ?]
    | |- preserves _ (tryCatch _) => apply preserves_tryCatch
    | |- preserves _ (if _ then _ else _) => apply preserves_if
    | |- preserves _ (match ?x with _ => _ end) => destruct x
    end.

(** ** User-set entries *)

Lemma updateAutoBlock_keeps_number tracker t n :
  preserves (fun s => getBlocked s t = BNumber n) (updateAutoBlock tracker).
Proof.
  intros s r s' Hrun Hnum.
  destruct (decide (tracker = t)) as [->|Hne].
  - rewrite updateAutoBlock_eq, Hnum in Hrun. simpl in Hrun.
    by injection Hrun as _ <-.
  - destruct (updateAutoBlock_frame _ _ _ _ Hrun) as [->|[v ->]]; [done|].
    by rewrite getBlocked_set_ne.
Qed.

Lemma updateEach_keeps_number notify keys t n :
  preserves (fun s => getBlocked s t = BNumber n) (updateEach notify keys).
Proof.
  induction keys as [|tracker keys IH]; simpl; [apply preserves_ret|].
  keeps; try done.
  - apply updateAutoBlock_keeps_number.
  - apply preserves_modify. done.
Qed.

Lemma shouldLoad_keeps_number r t n :
  preserves (fun s => getBlocked s t = BNumber n) (shouldLoad r).
Proof.
  unfold shouldLoad, shouldLoad_try, shouldLoad_track, shouldLoad_block.
  keeps; try (apply preserves_modify; done).
  apply updateAutoBlock_keeps_number.
Qed.

Lemma fireDue_keeps_blocked (P : gmap string blockedVal -> Prop) clock pending :
  preserves (fun s => P (blocked s)) (fireDue clock pending).
Proof.
  induction pending as [|due pending IH]; simpl; keeps; try done.
  unfold onReload_timeout. by apply preserves_modify.
Qed.

Lemma step_keeps_number e t n s :
  userAction e = false ->
  getBlocked s t = BNumber n -> getBlocked (step s e) t = BNumber n.
Proof.
  intros Hauto Hnum.
  set (P := fun s => getBlocked s t = BNumber n).
  assert (forall A (m : JS A), preserves P m -> P (m s).2) as Hkeep.
  { intros A m Hm. by eapply Hm; [apply surjective_pairing|]. }
  change (P (step s e)).
  destruct e; simpl in *; try done; apply Hkeep.
  - apply shouldLoad_keeps_number.
  - unfold unCookier. keeps; try done. by apply preserves_modify.
  - unfold set_threshold, updateAllAutoBlocked. keeps.
    + by apply preserves_modify.
    + apply updateEach_keeps_number.
  - unfold elapse. keeps; try (by apply preserves_modify).
    apply (fireDue_keeps_blocked (fun b => default BUndefined (b !! t) = BNumber n)).
Qed.

(** C2. A user-set entry (a number) is the same after any sequence of
    events that are not hand-made changes of the user: requests through
    [shouldLoad], however many and whether or not they record a new site,
    [set_threshold] with any value, requests sent, reloads, time passing,
    cookie and preference changes. *)
Theorem userSet_entry_kept s events tracker :
  originOf (getBlocked s tracker) = UserSet ->
  Forall (fun e => userAction e = false) events ->
  getBlocked (run s events) tracker = getBlocked s tracker.
Proof.
  intros Ho Hauto.
  assert (exists n, getBlocked s tracker = BNumber n) as [n Hn].
  { unfold originOf in Ho. destruct (getBlocked s tracker); try done. by eexists. }
  rewrite Hn. clear Ho. revert s Hn.
  induction Hauto as [|e events He _ IH]; intros s Hn; [done|].
  simpl. apply IH. by apply step_keeps_number.
Qed.

(** ** The ledger and the policy runs it triggers *)

Lemma updateAutoBlock_keeps_ledger
    (Q : list (string * gset string) -> list (string * string) -> Prop) tracker :
  preserves (fun s => Q (trackers s) (policyRuns s)) (updateAutoBlock tracker).
Proof.
  intros s r s' Hrun HQ.
  by destruct (updateAutoBlock_frame _ _ _ _ Hrun) as [->|[v ->]].
Qed.

Lemma updateEach_keeps_ledger
    (Q : list (string * gset string) -> list (string * string) -> Prop)
    notify keys :
  preserves (fun s => Q (trackers s) (policyRuns s)) (updateEach notify keys).
Proof.
  induction keys as [|tracker keys IH]; simpl; keeps; try done.
  - apply updateAutoBlock_keeps_ledger.
  - by apply preserves_modify.
Qed.

Lemma fireDue_keeps_ledger
    (Q : list (string * gset string) -> list (string * string) -> Prop)
    clock pending :
  preserves (fun s => Q (trackers s) (policyRuns s)) (fireDue clock pending).
Proof.
  induction pending as [|due pending IH]; simpl; keeps; try done.
  unfold onReload_timeout. by apply preserves_modify.
Qed.

Lemma tracked_recorded tracker site s : tracked (recorded tracker site s) tracker site.
Proof.
  unfold tracked, recorded; fields.
  rewrite getProp_setProp_eq. eexists; split; [done|]. set_solver.
Qed.

Lemma tracked_recorded_mono tracker site t c s :
  tracked s t c -> tracked (recorded tracker site s) t c.
Proof.
  intros (sites & Hs & Hin). unfold tracked, recorded; fields.
  destruct (decide (tracker = t)) as [->|Hne].
  - rewrite getProp_setProp_eq, Hs. eexists; split; [done|]. set_solver.
  - rewrite getProp_setProp_ne by done. eauto.
Qed.

Lemma tracked_or_not s tracker site :
  tracked s tracker site \/ ~ tracked s tracker site.
Proof.
  unfold tracked. destruct (getProp tracker (trackers s)) as [sites|].
  - destruct (decide (site ∈ sites)); [left; eauto|right].
    by intros (? & [= <-] & ?).
  - right. by intros (? & ? & ?).
Qed.

Lemma shouldLoad_track_keeps_once tracker site :
  preserves onePolicyRunPerPair (shouldLoad_track tracker site).
Proof.
  intros s r s' Hrun [Hnd Hin].
  destruct (tracked_or_not s tracker site) as [Hold|Hnew].
  - rewrite (shouldLoad_track_known _ _ _ Hold) in Hrun. by injection Hrun as _ <-.
  - rewrite (shouldLoad_track_new _ _ _ Hnew) in Hrun.
    destruct (updateAutoBlock tracker (recorded tracker site s)) as [r1 s1] eqn:E.
    assert (onePolicyRunPerPair (recorded tracker site s)) as Hrec.
    { split.
      - unfold recorded; fields. apply NoDup_cons. split; [|done].
        intros Hlogged. by apply Hnew, Hin.
      - intros t c Hl. unfold recorded in Hl; fields.
        apply elem_of_cons in Hl as [[= -> ->]|Hl].
        + apply tracked_recorded.
        + by apply tracked_recorded_mono, Hin. }
    assert (onePolicyRunPerPair s1) as H1.
    { revert Hrec.
      apply (updateAutoBlock_keeps_ledger (fun tr log =>
        NoDup log /\ forall t c, (t, c) ∈ log ->
          exists sites, getProp t tr = Some sites /\ c ∈ sites) _ _ _ _ E). }
    destruct r1; by injection Hrun as _ <-.
Qed.

Lemma ledger_only_once {A} (m : JS A) :
  (forall Q : list (string * gset string) -> list (string * string) -> Prop,
     preserves (fun s => Q (trackers s) (policyRuns s)) m) ->
  preserves onePolicyRunPerPair m.
Proof.
  intros Hm.
  apply (Hm (fun tr log =>
    NoDup log /\ forall t c, (t, c) ∈ log ->
      exists sites, getProp t tr = Some sites /\ c ∈ sites)).
Qed.

Lemma shouldLoad_keeps_once r : preserves onePolicyRunPerPair (shouldLoad r).
Proof.
  unfold shouldLoad, shouldLoad_try. keeps.
  - apply shouldLoad_track_keeps_once.
  - apply ledger_only_once. intros Q. unfold shouldLoad_block. keeps.
    by apply preserves_modify.
Qed.

Lemma step_keeps_once e s :
  onePolicyRunPerPair s -> onePolicyRunPerPair (step s e).
Proof.
  intros Hs.
  assert (forall A (m : JS A),
    preserves onePolicyRunPerPair m -> onePolicyRunPerPair (m s).2) as Hkeep.
  { intros A m Hm. by eapply Hm; [apply surjective_pairing|]. }
  destruct e; cbn [step]; try exact Hs; apply Hkeep;
    [apply shouldLoad_keeps_once|..];
    apply ledger_only_once; intros Q;
    unfold unCookier, set_threshold, toggle_block, emit_update_block, reset,
      updateAllAutoBlocked, onReload, elapse;
    keeps; try (by apply preserves_modify);
    first [apply updateEach_keeps_ledger | apply fireDue_keeps_ledger].
Qed.

Lemma run_keeps_once events s :
  onePolicyRunPerPair s -> onePolicyRunPerPair (run s events).
Proof.
  revert s. induction events as [|e events IH]; intros s Hs; [done|].
  simpl. by apply IH, step_keeps_once.
Qed.

(** C8. When the site is already in the tracker's set, the ledger step of
    [shouldLoad] changes nothing, the ledger included, and does not run
    the policy, and the whole request leaves the ledger, [allTracked],
    [storage.blocked] and the log of policy runs as they were; the ledger
    step runs the policy only for a pair the ledger did not have, which it
    then has. So over a session, whatever its events, the policy runs
    triggered by requests are for distinct (tracker, site) pairs: at most
    one per pair, not one per request. *)
Theorem policy_run_once_per_pair s0 events tracker site :
  policyRuns s0 = [] ->
  (forall s, tracked s tracker site ->
     shouldLoad_track tracker site s = (Normal tt, s)) /\
  (forall r s, thirdParty s r tracker site -> tracked s tracker site ->
     let s' := (shouldLoad r s).2 in
     trackers s' = trackers s /\ allTracked s' = allTracked s /\
     blocked s' = blocked s /\ policyRuns s' = policyRuns s) /\
  (forall s r s', shouldLoad_track tracker site s = (r, s') ->
     policyRuns s' <> policyRuns s ->
     ~ tracked s tracker site /\ tracked s' tracker site /\
     policyRuns s' = (tracker, site) :: policyRuns s) /\
  NoDup (policyRuns (run s0 events)) /\
  (forall t c, (t, c) ∈ policyRuns (run s0 events) -> tracked (run s0 events) t c).
Proof.
  intros Hlog. split; [apply shouldLoad_track_known|]. split; [|split].
  - intros r s Hreq Hold s'. subst s'.
    rewrite (shouldLoad_thirdParty _ _ _ _ Hreq),
      (shouldLoad_track_known _ _ _ Hold), shouldLoad_block_eq.
    destruct (looseEq _ _ || _); [done|]. by destruct (truthy _).
  - intros s r s' Hrun Hchanged.
    destruct (tracked_or_not s tracker site) as [Hold|Hnew].
    { rewrite (shouldLoad_track_known _ _ _ Hold) in Hrun.
      injection Hrun as _ <-. done. }
    split; [done|].
    rewrite (shouldLoad_track_new _ _ _ Hnew) in Hrun.
    destruct (updateAutoBlock tracker (recorded tracker site s)) as [r1 s1] eqn:E.
    assert (s' = s1) as -> by (destruct r1; by injection Hrun as _ <-).
    pose proof (tracked_recorded tracker site s) as Hin.
    destruct (updateAutoBlock_frame _ _ _ _ E) as [->|[v ->]]; done.
  - apply (run_keeps_once events s0). split.
    + rewrite Hlog. apply NoDup_nil. done.
    + intros t c. rewrite Hlog. by intros ?%elem_of_nil.
Qed.

(** ** Changing the threshold *)

Lemma reevaluated_refl s : reevaluated s s.
Proof. split; intros t; [done|by left]. Qed.

Lemma updateAutoBlock_reevaluated s0 tracker :
  preserves (reevaluated s0) (updateAutoBlock tracker).
Proof.
  intros s r s' Hrun [Hsame Hentries].
  rewrite updateAutoBlock_eq in Hrun.
  destruct (isNumber (getBlocked s tracker)) eqn:Hnum;
    [by injection Hrun as _ <-|].
  destruct (newBlockedOf s tracker) as [v|] eqn:Hv;
    [|by injection Hrun as _ <-].
  destruct (looseEq v (getBlocked s tracker));
    injection Hrun as _ <-; [done|].
  split; [intros t; apply Hsame|].
  intros t. destruct (decide (tracker = t)) as [<-|Hne].
  - right. rewrite getBlocked_set_eq, <- Hsame, Hv. split; [|done].
    destruct (Hentries tracker) as [<-|[? _]]; done.
  - rewrite getBlocked_set_ne by done. apply Hentries.
Qed.

Lemma updateEach_reevaluated s0 notify keys :
  preserves (reevaluated s0) (updateEach notify keys).
Proof.
  induction keys as [|tracker keys IH]; simpl; keeps; try done.
  - apply updateAutoBlock_reevaluated.
  - by apply preserves_modify.
Qed.

(** The value computed for given cookies, sites and directly-browsed set
    does not rise with the threshold. *)
Lemma newBlockedOf_antitone s tracker threshold v0 v1 :
  autoBlockThreshold s <= threshold ->
  newBlockedOf s tracker = Normal v0 ->
  newBlockedOf (set_autoBlockThreshold threshold s) tracker = Normal v1 ->
  levelRank (levelOf v1) <= levelRank (levelOf v0).
Proof.
  unfold newBlockedOf, CONNECTION_MULTIPLIER; fields. intros Hle.
  destruct (countCookiesFromHost s tracker) as [c|]; [|done].
  destruct (bool_decide (0 < c)%nat); [|by intros [= <-] [= <-]].
  destruct (getProp tracker (trackers s)) as [sites|]; [|done].
  intros [= <-] [= <-].
  repeat case_bool_decide; simpl; lia.
Qed.

Lemma set_threshold_eq threshold s :
  set_threshold threshold s =
    updateEach true (objectKeys (trackers s)) (set_autoBlockThreshold threshold s).
Proof. done. Qed.

(** C7, amended. For a tracker whose stored entry is not user-set and is
    the value the policy computes in the present state, setting a
    threshold at least as high and re-running the policy over all trackers
    leaves the site count as it was and the level the same or lower (None
    below Cookie below Connection); an entry that was not Connection does
    not become Connection. *)
Theorem raise_threshold_downgrades s tracker threshold :
  originOf (getBlocked s tracker) = Auto ->
  newBlockedFor tracker s = (Normal (getBlocked s tracker), s) ->
  autoBlockThreshold s <= threshold ->
  let s' := (set_threshold threshold s).2 in
  countSites s' tracker = countSites s tracker /\
  levelRank (levelOf (getBlocked s' tracker))
    <= levelRank (levelOf (getBlocked s tracker)) /\
  (getBlocked s tracker <> AUTO_BLOCK_CONNECTION ->
   getBlocked s' tracker <> AUTO_BLOCK_CONNECTION).
Proof.
  intros Ho Hcur Hle s'.
  rewrite newBlockedFor_eq in Hcur. injection Hcur as Hcur.
  set (s1 := set_autoBlockThreshold threshold s).
  assert (reevaluated s1 s' /\ trackers s' = trackers s) as [[Hsame Hentries] Htr].
  { subst s'. rewrite set_threshold_eq. fold s1.
    destruct (updateEach true (objectKeys (trackers s)) s1) as [r s2] eqn:E.
    split.
    - eapply updateEach_reevaluated; [exact E|apply reevaluated_refl].
    - by apply (updateEach_keeps_ledger (fun tr _ => tr = trackers s) _ _ _ _ _ E). }
  split; [unfold countSites; by rewrite Htr|].
  assert (levelRank (levelOf (getBlocked s' tracker))
            <= levelRank (levelOf (getBlocked s tracker))) as Hrank.
  { destruct (Hentries tracker) as [->|[_ Hnew]]; [done|].
    by eapply newBlockedOf_antitone. }
  split; [done|].
  intros Hnot Hconn. rewrite Hconn in Hrank. simpl in Hrank.
  destruct (getBlocked s tracker) as [| | |n] eqn:Hb; simpl in Hrank; try lia; try done.
Qed.

(** C7, as stated, fails: in the session [lateCookies] the entry of
    [t.example] is not user-set and its level is None, computed when the
    tracker had no cookie; raising the threshold from 4 to 5 leaves its ten
    sites and makes the level Connection. *)
Lemma raise_threshold_fresh_connection :
  let s := lateCookies in
  let s' := (set_threshold 5 s).2 in
  originOf (getBlocked s "t.example") = Auto /\
  autoBlockThreshold s = 4 /\
  countSites s "t.example" = 10 /\
  countSites s' "t.example" = 10 /\
  levelOf (getBlocked s "t.example") = LNone /\
  levelOf (getBlocked s' "t.example") = LConnection.
Proof. vm_compute. repeat split. Qed.

(** ** The reload grace flag *)

(** C9 fails on the code. The user reloads at time 0 and again at 5000: at
    10000 the callback of the first reload has lowered [acceptForReload],
    while the callback of the second is due only at 15000. *)
Theorem overlapping_reload_cut_short :
  acceptForReload (run freshProfile [EReload; EElapse 5000; EReload]) = true /\
  timeouts (run freshProfile [EReload; EElapse 5000; EReload]) = [10000; 15000] /\
  now twoReloads = 10000 /\
  timeouts twoReloads = [15000] /\
  acceptForReload twoReloads = false.
Proof. vm_compute. repeat split. Qed.

(** ** The statements at sample sessions *)

Ltac by_computation := refine (bool_decide_unpack _ _); vm_compute; exact I.

Lemma updateAutoBlock_level_witness :
  exists changed s',
    updateAutoBlock "t.example" tenSitesCookied = (Normal changed, s') /\
    originOf (getBlocked s' "t.example") = Auto /\
    spec_autoLevel 3 (countSites tenSitesCookied "t.example")
      (autoBlockThreshold tenSitesCookied)
      (bool_decide ("t.example" ∈ allTracked tenSitesCookied))
      (levelOf (getBlocked s' "t.example")).
Proof.
  apply (updateAutoBlock_level "t.example" tenSitesCookied 3).
  - vm_compute. reflexivity.
  - vm_compute. reflexivity.
  - right. by_computation.
Defined.

Lemma userSet_entry_kept_witness :
  getBlocked
    (run blockedByHand (metOn "t.example" tenSites ++ [ESetThreshold 1; EReload]))
    "t.example"
  = getBlocked blockedByHand "t.example".
Proof.
  apply (userSet_entry_kept blockedByHand).
  - vm_compute. reflexivity.
  - repeat constructor.
Defined.

Lemma shouldLoad_enforcement_witness :
  shouldLoad (embedded "t.example" "s0.example" "https://t.example/a.gif")
    nineSitesCookied
  = (Normal ACCEPT,
     set_unCookieNext (Some "https://t.example/a.gif") nineSitesCookied).
Proof.
  assert (thirdParty nineSitesCookied
    (embedded "t.example" "s0.example" "https://t.example/a.gif")
    "t.example" "s0.example") as Hreq.
  { apply embedded_thirdParty; [vm_compute; reflexivity|discriminate|by_computation]. }
  assert (shouldLoad_track "t.example" "s0.example" nineSitesCookied
    = (Normal tt, nineSitesCookied)) as Htrack.
  { vm_compute. reflexivity. }
  refine (proj1 (shouldLoad_enforcement _ _ _ _ _ Hreq Htrack) _).
  left. vm_compute. reflexivity.
Defined.

Lemma unCookier_consume_witness :
  (unCookier "https://a/y" (set_unCookieNext (Some "https://a/x") freshProfile)).1
    = Normal false /\
  unCookieNext
    (unCookier "https://a/y" (set_unCookieNext (Some "https://a/x") freshProfile)).2
    = None /\
  (unCookier "https://a/x"
     (unCookier "https://a/y"
        (set_unCookieNext (Some "https://a/x") freshProfile)).2).1
    = Normal false.
Proof.
  apply (proj2 (proj2 (proj2 (unCookier_consume freshProfile "https://a/y")))
    "https://a/x" "https://a/y").
  done.
Defined.

Lemma shouldLoad_fails_open_witness :
  shouldLoad fromAddress tenSitesCookied = (Normal ACCEPT, tenSitesCookied).
Proof.
  apply (shouldLoad_fails_open fromAddress tenSitesCookied tenSitesCookied).
  - vm_compute. reflexivity.
  - vm_compute. reflexivity.
Defined.

Lemma updateAutoBlock_direct_or_connection_witness :
  exists changed s',
    updateAutoBlock "t.example" tenSitesCookied = (Normal changed, s') /\
    getBlocked s' "t.example" = AUTO_BLOCK_CONNECTION.
Proof.
  destruct (updateAutoBlock_direct_or_connection "t.example" tenSitesCookied 3)
    as (changed & s' & Hrun & _ & Hconn).
  - vm_compute. reflexivity.
  - vm_compute. reflexivity.
  - right. by_computation.
  - exists changed, s'. split; [exact Hrun|].
    apply Hconn; [lia|vm_compute; discriminate|by_computation].
Defined.

(** C6, as stated for every reachable state, fails: a stored entry is
    refreshed only by an evaluation of its own tracker. In the session
    [browsedAfterConnection] the tracker [t.example] is in the
    directly-browsed set, its entry is not user-set and is still
    Connection, and its next request is rejected. In the session
    [lateCookies] the tracker has cookies, is outside the directly-browsed
    set and was seen on ten sites with the threshold at 4, and its entry is
    None. *)
Lemma direct_tracker_keeps_connection :
  ("t.example" ∈ allTracked browsedAfterConnection /\
   originOf (getBlocked browsedAfterConnection "t.example") = Auto /\
   levelOf (getBlocked browsedAfterConnection "t.example") = LConnection /\
   (shouldLoad (embedded "t.example" "s0.example" "https://t.example/px")
      browsedAfterConnection).1 = Normal REJECT_REQUEST) /\
  (countCookiesFromHost lateCookies "t.example" = Some 3%nat /\
   autoBlockThreshold lateCookies * CONNECTION_MULTIPLIER
     <= countSites lateCookies "t.example" /\
   ("t.example" ∉ allTracked lateCookies) /\
   originOf (getBlocked lateCookies "t.example") = Auto /\
   levelOf (getBlocked lateCookies "t.example") = LNone).
Proof.
  split.
  - split; [by_computation|]. repeat split; vm_compute; reflexivity.
  - split; [vm_compute; reflexivity|].
    split; [vm_compute; discriminate|].
    split; [by_computation|]. split; vm_compute; reflexivity.
Qed.

Lemma raise_threshold_downgrades_witness :
  levelRank (levelOf (getBlocked (set_threshold 6 tenSitesCookied).2 "t.example"))
    <= levelRank (levelOf (getBlocked tenSitesCookied "t.example")).
Proof.
  apply (raise_threshold_downgrades tenSitesCookied "t.example" 6).
  - vm_compute. reflexivity.
  - vm_compute. reflexivity.
  - vm_compute. discriminate.
Defined.

Lemma policy_run_once_per_pair_witness :
  NoDup (policyRuns
    (run freshProfile (metOn "t.example" tenSites ++ metOn "t.example" tenSites))).
Proof.
  apply (policy_run_once_per_pair freshProfile
    (metOn "t.example" tenSites ++ metOn "t.example" tenSites)
    "t.example" "s0.example").
  reflexivity.
Defined.

Lemma shouldLoad_early_accept_witness :
  shouldLoad topLevelLoad tenSitesCookied = (Normal ACCEPT, tenSitesCookied).
Proof.
  apply (shouldLoad_early_accept topLevelLoad tenSitesCookied).
  right. left. reflexivity.
Defined.

(** ** The ledger over a session *)

Lemma getProp_elem_of {V} k (v : V) o : getProp k o = Some v -> (k, v) ∈ o.
Proof.
  induction o as [|[k' v'] o IH]; simpl; [done|].
  destruct (decide (k = k')) as [->|].
  - intros [= ->]. apply elem_of_cons. by left.
  - intros H. apply elem_of_cons. right. by apply IH.
Qed.

Lemma tracked_recorded_inv tracker site t c s :
  tracked (recorded tracker site s) t c ->
  tracked s t c \/ (t = tracker /\ c = site).
Proof.
  unfold tracked, recorded; fields. intros (sites & Hs & Hin).
  destruct (decide (tracker = t)) as [->|Hne].
  - rewrite getProp_setProp_eq in Hs. injection Hs as <-.
    apply elem_of_union in Hin as [Hin|Hin].
    + right. split; [done|]. by apply elem_of_singleton in Hin.
    + left. destruct (getProp t (trackers s)) as [sites|]; [eauto|].
      by apply not_elem_of_empty in Hin.
  - rewrite getProp_setProp_ne in Hs by done. left. eauto.
Qed.

Lemma ledgerGrows_refl s : ledgerGrows s s.
Proof. split; [by intros|done]. Qed.

Lemma updateAutoBlock_keeps_fields {A} (F : Engine -> A) (Q : A -> Prop) tracker :
  (forall b s, F (set_blocked b s) = F s) ->
  preserves (fun s => Q (F s)) (updateAutoBlock tracker).
Proof.
  intros HF s r s' Hrun HQ.
  destruct (updateAutoBlock_frame _ _ _ _ Hrun) as [->|[v ->]]; [done|].
  by rewrite HF.
Qed.

Lemma updateEach_keeps_fields {A} (F : Engine -> A) (Q : A -> Prop) notify keys :
  (forall b s, F (set_blocked b s) = F s) ->
  (forall o s, F (set_updateBlockSent o s) = F s) ->
  preserves (fun s => Q (F s)) (updateEach notify keys).
Proof.
  intros HF HG. induction keys as [|tracker keys IH]; simpl; keeps; try done.
  - by apply updateAutoBlock_keeps_fields.
  - unfold emit_update_block. apply preserves_modify. intros s. by rewrite HG.
Qed.

Lemma fireDue_keeps_fields {A} (F : Engine -> A) (Q : A -> Prop) clock pending :
  (forall b s, F (set_acceptForReload b s) = F s) ->
  preserves (fun s => Q (F s)) (fireDue clock pending).
Proof.
  intros HF. induction pending as [|due pending IH]; simpl; keeps; try done.
  unfold onReload_timeout. apply preserves_modify. intros s. by rewrite HF.
Qed.

Lemma shouldLoad_track_grows s0 tracker site :
  preserves (ledgerGrows s0) (shouldLoad_track tracker site).
Proof.
  intros s r s' Hrun [Hpairs Hsites].
  destruct (tracked_or_not s tracker site) as [Hold|Hnew].
  { rewrite (shouldLoad_track_known _ _ _ Hold) in Hrun. by injection Hrun as _ <-. }
  rewrite (shouldLoad_track_new _ _ _ Hnew) in Hrun.
  destruct (updateAutoBlock tracker (recorded tracker site s)) as [r1 s1] eqn:E.
  assert (s' = s1) as -> by (destruct r1; by injection Hrun as _ <-).
  assert (ledgerGrows s0 (recorded tracker site s)) as Hrec.
  { split.
    - intros t c Ht. by apply tracked_recorded_mono, Hpairs.
    - unfold recorded; fields. set_solver. }
  revert Hrec.
  apply (updateAutoBlock_keeps_fields (fun s => (trackers s, allTracked s))
    (fun p => (forall t c, tracked s0 t c ->
                 exists sites, getProp t p.1 = Some sites /\ c ∈ sites) /\
              allTracked s0 ⊆ p.2) tracker (fun _ _ => eq_refl) _ _ _ E).
Qed.

Lemma ledger_fields_grow {A} s0 (m : JS A) :
  (forall Q : list (string * gset string) * gset string -> Prop,
     preserves (fun s => Q (trackers s, allTracked s)) m) ->
  preserves (ledgerGrows s0) m.
Proof.
  intros Hm.
  apply (Hm (fun p => (forall t c, tracked s0 t c ->
                 exists sites, getProp t p.1 = Some sites /\ c ∈ sites) /\
              allTracked s0 ⊆ p.2)).
Qed.

Lemma shouldLoad_block_keeps_fields {A} (F : Engine -> A) (Q : A -> Prop) t url :
  (forall u s, F (set_unCookieNext u s) = F s) ->
  preserves (fun s => Q (F s)) (shouldLoad_block t url).
Proof.
  intros HF. unfold shouldLoad_block. keeps.
  apply preserves_modify. intros s. by rewrite HF.
Qed.

Lemma step_grows s0 e s : ledgerGrows s0 s -> ledgerGrows s0 (step s e).
Proof.
  intros Hs.
  assert (forall A (m : JS A),
    preserves (ledgerGrows s0) m -> ledgerGrows s0 (m s).2) as Hkeep.
  { intros A m Hm. by eapply Hm; [apply surjective_pairing|]. }
  destruct e; cbn [step]; try exact Hs; apply Hkeep.
  { unfold shouldLoad, shouldLoad_try. keeps.
    - apply shouldLoad_track_grows.
    - apply ledger_fields_grow. intros Q.
      by apply (shouldLoad_block_keeps_fields (fun s => (trackers s, allTracked s))). }
  all: apply ledger_fields_grow; intros Q;
    unfold unCookier, set_threshold, toggle_block, emit_update_block, reset,
      updateAllAutoBlocked, onReload, elapse;
    keeps; try (by apply preserves_modify);
    first [ by apply (updateEach_keeps_fields (fun s => (trackers s, allTracked s)))
          | by apply (fireDue_keeps_fields (fun s => (trackers s, allTracked s))) ].
Qed.

(** X1. During a session nothing is ever removed from the ledger or from
    [allTracked]: a (tracker, site) pair recorded in a state is recorded in
    every later state, and a site in [allTracked] stays in it, whatever the
    events in between (requests, sends, threshold changes, toggles, reset,
    reloads, timers, cookie and preference changes). *)
Theorem ledger_never_shrinks s events :
  (forall tracker site,
     tracked s tracker site -> tracked (run s events) tracker site) /\
  allTracked s ⊆ allTracked (run s events).
Proof.
  change (ledgerGrows s (run s events)).
  generalize (ledgerGrows_refl s). generalize s at 2 4 as s1.
  induction events as [|e events IH]; intros s1 Hs1; [done|].
  simpl. by apply IH, step_grows.
Qed.

Lemma shouldLoad_track_keeps_fields {A} (F : Engine -> A) (Q : A -> Prop)
    tracker site :
  (forall v s, F (set_trackers v s) = F s) ->
  (forall v s, F (set_allTracked v s) = F s) ->
  (forall v s, F (set_policyRuns v s) = F s) ->
  (forall v s, F (set_blocked v s) = F s) ->
  preserves (fun s => Q (F s)) (shouldLoad_track tracker site).
Proof.
  intros H1 H2 H3 H4. unfold shouldLoad_track. keeps;
    try (apply preserves_modify; intros s; by rewrite ?H1, ?H2, ?H3).
  by apply updateAutoBlock_keeps_fields.
Qed.

Lemma shouldLoad_track_tracks tracker site s :
  tracked (shouldLoad_track tracker site s).2 tracker site.
Proof.
  destruct (tracked_or_not s tracker site) as [Hold|Hnew].
  { by rewrite (shouldLoad_track_known _ _ _ Hold). }
  rewrite (shouldLoad_track_new _ _ _ Hnew).
  destruct (updateAutoBlock tracker (recorded tracker site s)) as [r1 s1] eqn:E.
  assert (tracked s1 tracker site) as H1.
  { generalize (tracked_recorded tracker site s).
    apply (updateAutoBlock_keeps_fields trackers
      (fun tr => exists sites, getProp tracker tr = Some sites /\ site ∈ sites)
      tracker (fun _ _ => eq_refl) _ _ _ E). }
  by destruct r1.
Qed.

Lemma shouldLoad_track_outcome tracker site s :
  (shouldLoad_track tracker site s).1 =
    if bool_decide (tracked s tracker site) then Normal tt
    else if isNumber (getBlocked s tracker) then Normal tt
    else match countCookiesFromHost s tracker with
         | Some _ => Normal tt
         | None => Throw
         end.
Proof.
  destruct (tracked_or_not s tracker site) as [Hold|Hnew].
  { rewrite bool_decide_eq_true_2 by done.
    by rewrite (shouldLoad_track_known _ _ _ Hold). }
  rewrite bool_decide_eq_false_2 by done.
  rewrite (shouldLoad_track_new _ _ _ Hnew), updateAutoBlock_eq.
  assert (getBlocked (recorded tracker site s) tracker = getBlocked s tracker)
    as -> by done.
  destruct (isNumber (getBlocked s tracker)) eqn:Hnum; [done|].
  unfold newBlockedOf.
  assert (countCookiesFromHost (recorded tracker site s) tracker
          = countCookiesFromHost s tracker) as -> by done.
  destruct (countCookiesFromHost s tracker) as [n|] eqn:Hc; [|done].
  destruct (tracked_recorded tracker site s) as (sites & -> & _).
  destruct (bool_decide (0 < n)%nat);
    match goal with |- context [looseEq ?a ?b] => by destruct (looseEq a b) end.
Qed.

Lemma shouldLoad_track_keeps_visits tracker site :
  preserves sitesVisited (shouldLoad_track tracker site).
Proof.
  intros s r s' Hrun Hs.
  destruct (tracked_or_not s tracker site) as [Hold|Hnew].
  { rewrite (shouldLoad_track_known _ _ _ Hold) in Hrun. by injection Hrun as _ <-. }
  rewrite (shouldLoad_track_new _ _ _ Hnew) in Hrun.
  destruct (updateAutoBlock tracker (recorded tracker site s)) as [r1 s1] eqn:E.
  assert (s' = s1) as -> by (destruct r1; by injection Hrun as _ <-).
  assert (sitesVisited (recorded tracker site s)) as Hrec.
  { intros t c Ht.
    assert (allTracked (recorded tracker site s) = {[site]} ∪ allTracked s)
      as -> by done.
    apply tracked_recorded_inv in Ht as [Ht|[-> ->]]; [|set_solver].
    apply elem_of_union. right. exact (Hs t c Ht). }
  exact (updateAutoBlock_keeps_fields (fun s => (trackers s, allTracked s))
    (fun p => forall t c,
       (exists sites, getProp t p.1 = Some sites /\ c ∈ sites) -> c ∈ p.2)
    tracker (fun _ _ => eq_refl) _ _ _ E Hrec).
Qed.

Lemma step_keeps_visits e s : sitesVisited s -> sitesVisited (step s e).
Proof.
  intros Hs.
  assert (forall A (m : JS A),
    preserves sitesVisited m -> sitesVisited (m s).2) as Hkeep.
  { intros A m Hm. by eapply Hm; [apply surjective_pairing|]. }
  assert (forall A (m : JS A),
    (forall Q : list (string * gset string) * gset string -> Prop,
       preserves (fun s => Q (trackers s, allTracked s)) m) ->
    preserves sitesVisited m) as Hfields.
  { intros A m Hm.
    apply (Hm (fun p => forall t c,
       (exists sites, getProp t p.1 = Some sites /\ c ∈ sites) -> c ∈ p.2)). }
  destruct e; cbn [step]; try exact Hs; apply Hkeep.
  { unfold shouldLoad, shouldLoad_try. keeps.
    - apply shouldLoad_track_keeps_visits.
    - apply Hfields. intros Q.
      by apply (shouldLoad_block_keeps_fields (fun s => (trackers s, allTracked s))). }
  all: apply Hfields; intros Q;
    unfold unCookier, set_threshold, toggle_block, emit_update_block, reset,
      updateAllAutoBlocked, onReload, elapse;
    keeps; try (by apply preserves_modify);
    first [ by apply (updateEach_keeps_fields (fun s => (trackers s, allTracked s)))
          | by apply (fireDue_keeps_fields (fun s => (trackers s, allTracked s))) ].
Qed.

Lemma main_visits threshold blockedStored trackersStored known potential cookies :
  sitesVisited (main threshold blockedStored trackersStored known potential cookies).
Proof.
  intros t c (sites & Hs & Hin). simpl in *.
  apply elem_of_union_list. exists sites. split; [|done].
  apply getProp_elem_of in Hs.
  apply list_elem_of_fmap. by exists (t, sites).
Qed.

(** X2. From start-up on, every site recorded in the ledger under some
    tracker is in [allTracked]: [main] rebuilds [allTracked] from the stored
    ledger, and [shouldLoad] adds the site whenever it records a pair. *)
Theorem ledger_sites_in_allTracked
    threshold blockedStored trackersStored known potential cookies events
    tracker site :
  let s := run (main threshold blockedStored trackersStored known potential cookies)
               events in
  tracked s tracker site -> site ∈ allTracked s.
Proof.
  intros s. subst s. revert tracker site. fold (sitesVisited
    (run (main threshold blockedStored trackersStored known potential cookies) events)).
  generalize (main_visits threshold blockedStored trackersStored known potential cookies).
  generalize (main threshold blockedStored trackersStored known potential cookies).
  induction events as [|e events IH]; intros s Hs; [done|].
  simpl. by apply IH, step_keeps_visits.
Qed.

(** ** More on [shouldLoad] *)

Lemma updateAutoBlock_keeps_others tracker t v :
  tracker <> t ->
  preserves (fun s => getBlocked s t = v) (updateAutoBlock tracker).
Proof.
  intros Hne s r s' Hrun Hv.
  destruct (updateAutoBlock_frame _ _ _ _ Hrun) as [->|[w ->]]; [done|].
  by rewrite getBlocked_set_ne.
Qed.

Lemma shouldLoad_track_keeps_others tracker site t v :
  tracker <> t ->
  preserves (fun s => getBlocked s t = v) (shouldLoad_track tracker site).
Proof.
  intros Hne. unfold shouldLoad_track. keeps; try (by apply preserves_modify).
  by apply updateAutoBlock_keeps_others.
Qed.

(** X3. When the policy throws on a new pair (the cookie service fails and
    the entry is not user-set), the request is accepted and the pair is
    recorded all the same: the state is the one in which [updateAutoBlock]
    was called, so the stored level is as before and, even for a potential
    tracker, [unCookieNext] is not set. *)
Theorem shouldLoad_policy_failure r s tracker site :
  thirdParty s r tracker site ->
  ~ tracked s tracker site ->
  isNumber (getBlocked s tracker) = false ->
  countCookiesFromHost s tracker = None ->
  shouldLoad r s = (Normal ACCEPT, recorded tracker site s) /\
  tracked (recorded tracker site s) tracker site /\
  getBlocked (recorded tracker site s) tracker = getBlocked s tracker /\
  unCookieNext (recorded tracker site s) = unCookieNext s.
Proof.
  intros Hreq Hnew Hnum Hc. split; [|split; [apply tracked_recorded|done]].
  rewrite (shouldLoad_thirdParty _ _ _ _ Hreq), (shouldLoad_track_new _ _ _ Hnew),
    updateAutoBlock_eq.
  assert (getBlocked (recorded tracker site s) tracker = getBlocked s tracker)
    as -> by done.
  rewrite Hnum. unfold newBlockedOf.
  assert (countCookiesFromHost (recorded tracker site s) tracker
          = countCookiesFromHost s tracker) as -> by done.
  by rewrite Hc.
Qed.

(** X4. [shouldLoad] rejects only a third-party request whose tracker, after
    the ledger step, has a truthy stored value other than ["cookie"] and is
    not a potential tracker; the pair is then in the ledger and
    [unCookieNext] is as it was. In particular a request to a potential
    tracker is never rejected, whatever is stored for it. *)
Theorem shouldLoad_rejects_only_blocked r s :
  (shouldLoad r s).1 = Normal REJECT_REQUEST ->
  exists tracker site,
    thirdParty s r tracker site /\
    truthy (getBlocked (shouldLoad r s).2 tracker) = true /\
    getBlocked (shouldLoad r s).2 tracker <> AUTO_BLOCK_COOKIE /\
    (tracker ∉ potentialTrackers s) /\
    tracked (shouldLoad r s).2 tracker site /\
    unCookieNext (shouldLoad r s).2 = unCookieNext s.
Proof.
  intros Hrej.
  destruct (shouldLoad_cases r s) as [Hacc|(tracker & site & Hreq)].
  { rewrite Hacc in Hrej. done. }
  exists tracker, site. split; [done|].
  rewrite (shouldLoad_thirdParty _ _ _ _ Hreq) in Hrej |- *.
  pose proof (shouldLoad_track_tracks tracker site s) as Htr.
  assert (potentialTrackers (shouldLoad_track tracker site s).2 = potentialTrackers s
          /\ unCookieNext (shouldLoad_track tracker site s).2 = unCookieNext s)
    as [Hpot Hslot].
  { apply (shouldLoad_track_keeps_fields
      (fun s => (potentialTrackers s, unCookieNext s))
      (fun p => p.1 = potentialTrackers s /\ p.2 = unCookieNext s) tracker site
      (fun _ _ => eq_refl) (fun _ _ => eq_refl) (fun _ _ => eq_refl)
      (fun _ _ => eq_refl) s _ _ (surjective_pairing _)). done. }
  destruct (shouldLoad_track tracker site s) as [[[]|] s1]; [|done].
  simpl in Htr, Hpot, Hslot.
  rewrite shouldLoad_block_eq in Hrej |- *.
  destruct (looseEq (getBlocked s1 tracker) AUTO_BLOCK_COOKIE) eqn:Hck;
    simpl in Hrej |- *; [done|].
  destruct (bool_decide (tracker ∈ potentialTrackers s1)) eqn:Hp;
    simpl in Hrej |- *; [done|].
  destruct (truthy (getBlocked s1 tracker)) eqn:Ht; simpl in Hrej |- *; [|done].
  repeat split; try done.
  - intros Heq. rewrite Heq in Hck. done.
  - apply bool_decide_eq_false in Hp. by rewrite <- Hpot.
Qed.

(** X5. A request changes neither the threshold, the preferences, the
    cookie service, the clock, the timers, the reload flag nor the messages
    sent to the page; it leaves [unCookieNext] as it was or sets it to its
    own URL, never clears it; and it leaves the stored value of every
    tracker other than its own as it was. *)
Theorem shouldLoad_frame r s :
  let s' := (shouldLoad r s).2 in
  readOnlyToRequests s' = readOnlyToRequests s /\
  (unCookieNext s' = unCookieNext s \/ unCookieNext s' = Some (spec r)) /\
  (forall t, baseDomain r <> Some t -> getBlocked s' t = getBlocked s t).
Proof.
  intros s'. subst s'.
  destruct (shouldLoad_cases r s) as [Hacc|(tracker & site & Hreq)].
  { rewrite Hacc. simpl. split; [done|]. split; [by left|done]. }
  rewrite (shouldLoad_thirdParty _ _ _ _ Hreq).
  assert (readOnlyToRequests (shouldLoad_track tracker site s).2
            = readOnlyToRequests s
          /\ unCookieNext (shouldLoad_track tracker site s).2 = unCookieNext s)
    as [Hro Hslot].
  { apply (shouldLoad_track_keeps_fields
      (fun s => (readOnlyToRequests s, unCookieNext s))
      (fun p => p.1 = readOnlyToRequests s /\ p.2 = unCookieNext s) tracker site
      (fun _ _ => eq_refl) (fun _ _ => eq_refl) (fun _ _ => eq_refl)
      (fun _ _ => eq_refl) s _ _ (surjective_pairing _)). done. }
  assert (forall t, baseDomain r <> Some t ->
    getBlocked (shouldLoad_track tracker site s).2 t = getBlocked s t) as Hothers.
  { intros t Ht.
    assert (tracker <> t) as Hne.
    { intros ->. destruct Hreq as (_ & _ & _ & Hbase & _). done. }
    exact (shouldLoad_track_keeps_others tracker site t _ Hne s _ _
             (surjective_pairing _) eq_refl). }
  destruct (shouldLoad_track tracker site s) as [[[]|] s1]; simpl in *;
    [|split; [done|split; [by left|done]]].
  rewrite shouldLoad_block_eq.
  destruct (looseEq _ _ || _); simpl; [split; [done|split; [by right|done]]|].
  destruct (truthy _); simpl; (split; [done|split; [by left|done]]).
Qed.

(** X6. A third-party request to a potential tracker whose ledger step
    completes (the pair is known, or the entry is user-set, or the cookie
    service answers) is accepted whatever is stored for the tracker, and
    the next request sent, if it is for the same URL, has its cookie header
    cleared, after which nothing is pending. *)
Theorem potential_tracker_uncookied r s tracker site :
  thirdParty s r tracker site ->
  tracker ∈ potentialTrackers s ->
  tracked s tracker site \/ isNumber (getBlocked s tracker) = true \/
    is_Some (countCookiesFromHost s tracker) ->
  let s' := (shouldLoad r s).2 in
  (shouldLoad r s).1 = Normal ACCEPT /\
  (unCookier (spec r) s').1 = Normal true /\
  unCookieNext (unCookier (spec r) s').2 = None.
Proof.
  intros Hreq Hpot Hcompletes s'. subst s'.
  rewrite (shouldLoad_thirdParty _ _ _ _ Hreq).
  pose proof (shouldLoad_track_outcome tracker site s) as Hout.
  assert (potentialTrackers (shouldLoad_track tracker site s).2 = potentialTrackers s)
    as Hp.
  { apply (shouldLoad_track_keeps_fields potentialTrackers
      (fun p => p = potentialTrackers s) tracker site
      (fun _ _ => eq_refl) (fun _ _ => eq_refl) (fun _ _ => eq_refl)
      (fun _ _ => eq_refl) s _ _ (surjective_pairing _)). done. }
  destruct (shouldLoad_track tracker site s) as [[[]|] s1]; simpl in *.
  - rewrite shouldLoad_block_eq, Hp, (bool_decide_eq_true_2 _ Hpot), orb_true_r.
    cbn [fst snd]. split; [done|]. rewrite unCookier_eq. cbn.
    by rewrite bool_decide_eq_true_2.
  - exfalso. destruct Hcompletes as [Ht|[Hn|[n Hc]]].
    + by rewrite bool_decide_eq_true_2 in Hout.
    + rewrite Hn in Hout. by destruct (bool_decide _).
    + rewrite Hc in Hout. destruct (bool_decide _); [done|]. by destruct (isNumber _).
Qed.

(** ** More on the policy *)

Lemma newBlockedOf_inputs s s' tracker :
  policyInputs s' = policyInputs s ->
  newBlockedOf s' tracker = newBlockedOf s tracker.
Proof.
  unfold policyInputs, newBlockedOf. intros [= -> -> -> ->]. done.
Qed.

Lemma newBlockedOf_not_number s tracker v :
  newBlockedOf s tracker = Normal v -> isNumber v = false.
Proof.
  unfold newBlockedOf.
  destruct (countCookiesFromHost s tracker) as [n|]; [|done].
  destruct (bool_decide (0 < n)%nat); [|by intros [= <-]].
  destruct (getProp tracker (trackers s)); [|done].
  intros [= <-]. repeat case_bool_decide; done.
Qed.

Lemma engine_eta_blocked s : set_blocked (blocked s) s = s.
Proof. by destruct s. Qed.

(** X7. [updateAutoBlock] returns true exactly when it changed the stored
    value of the tracker, as its comment says; when it returns false or
    throws it has written nothing; and in every case it leaves everything
    but [storage.blocked[tracker]] as it was. *)
Theorem updateAutoBlock_returns_changed tracker s :
  ((updateAutoBlock tracker s).1 = Normal true <->
   getBlocked (updateAutoBlock tracker s).2 tracker <> getBlocked s tracker) /\
  ((updateAutoBlock tracker s).1 <> Normal true ->
   (updateAutoBlock tracker s).2 = s) /\
  (updateAutoBlock tracker s).2
    = set_blocked (blocked (updateAutoBlock tracker s).2) s /\
  (forall t, t <> tracker ->
     getBlocked (updateAutoBlock tracker s).2 t = getBlocked s t).
Proof.
  rewrite updateAutoBlock_eq.
  destruct (isNumber (getBlocked s tracker)); simpl.
  { rewrite engine_eta_blocked. repeat split; done. }
  destruct (newBlockedOf s tracker) as [v|]; simpl.
  2: { rewrite engine_eta_blocked. repeat split; done. }
  destruct (looseEq v (getBlocked s tracker)) eqn:E; simpl.
  { rewrite engine_eta_blocked. repeat split; done. }
  rewrite getBlocked_set_eq. split; [|split; [done|split; [done|]]].
  - split; [|done]. intros _ Heq. apply looseEq_true in Heq. congruence.
  - intros t Hne. by rewrite getBlocked_set_ne.
Qed.

(** X8. Evaluating the policy twice in a row for a tracker is the same as
    evaluating it once: the second call changes nothing and returns false
    (or throws again where the first threw). *)
Theorem updateAutoBlock_twice tracker s :
  updateAutoBlock tracker (updateAutoBlock tracker s).2 =
    (match (updateAutoBlock tracker s).1 with
     | Normal _ => Normal false
     | Throw => Throw
     end,
     (updateAutoBlock tracker s).2).
Proof.
  rewrite (updateAutoBlock_eq tracker s).
  destruct (isNumber (getBlocked s tracker)) eqn:Hnum; simpl.
  { by rewrite updateAutoBlock_eq, Hnum. }
  destruct (newBlockedOf s tracker) as [v|] eqn:Hv; simpl.
  2: { by rewrite updateAutoBlock_eq, Hnum, Hv. }
  destruct (looseEq v (getBlocked s tracker)) eqn:E; simpl.
  { by rewrite updateAutoBlock_eq, Hnum, Hv, E. }
  rewrite updateAutoBlock_eq, getBlocked_set_eq.
  rewrite (newBlockedOf_not_number _ _ _ Hv).
  rewrite (newBlockedOf_inputs s) by done. rewrite Hv.
  by rewrite (proj2 (looseEq_true v v) eq_refl).
Qed.

(** ** More on the port handlers *)

Lemma updateEach_keeps_others notify keys t v :
  t ∉ keys ->
  preserves (fun s => getBlocked s t = v) (updateEach notify keys).
Proof.
  induction keys as [|k keys IH]; simpl; [intros; apply preserves_ret|].
  intros Hnotin. apply not_elem_of_cons in Hnotin as [Hne Hnotin].
  keeps; try done.
  - by apply updateAutoBlock_keeps_others.
  - by apply preserves_modify.
  - by apply IH.
Qed.

Lemma updateEach_keeps_inputs notify keys s r s' :
  updateEach notify keys s = (r, s') -> policyInputs s' = policyInputs s.
Proof.
  intros Hrun.
  by apply (updateEach_keeps_fields policyInputs (fun p => p = policyInputs s)
    notify keys (fun _ _ => eq_refl) (fun _ _ => eq_refl) s r s' Hrun).
Qed.

Lemma updateEach_cons notify k keys s :
  updateEach notify (k :: keys) s =
    match updateAutoBlock k s with
    | (Normal changed, s1) =>
        updateEach notify keys
          (if changed && notify
           then set_updateBlockSent ((k, getBlocked s1 k) :: updateBlockSent s1) s1
           else s1)
    | (Throw, s1) => (Throw, s1)
    end.
Proof.
  simpl. unfold bind, emit_update_block, modify, ret.
  destruct (updateAutoBlock k s) as [[changed|] s1]; [|done].
  by destruct (changed && notify).
Qed.

(** The state in which the rest of the keys are visited. *)
Lemma updateEach_next notify k s :
  exists r s1 s2,
    updateAutoBlock k s = (r, s1) /\
    policyInputs s2 = policyInputs s /\
    (forall t, getBlocked s2 t = getBlocked s1 t) /\
    (forall keys, updateEach notify (k :: keys) s =
       match r with
       | Normal _ => updateEach notify keys s2
       | Throw => (Throw, s1)
       end).
Proof.
  destruct (updateAutoBlock k s) as [r s1] eqn:E.
  assert (policyInputs s1 = policyInputs s) as Hin.
  { by apply (updateAutoBlock_keeps_fields policyInputs (fun p => p = policyInputs s)
      k (fun _ _ => eq_refl) s r s1 E). }
  destruct r as [changed|].
  - exists (Normal changed), s1,
      (if changed && notify
       then set_updateBlockSent ((k, getBlocked s1 k) :: updateBlockSent s1) s1
       else s1).
    split; [done|]. split; [by destruct (changed && notify)|].
    split; [by destruct (changed && notify)|].
    intros keys. by rewrite updateEach_cons, E.
  - exists Throw, s1, s1. repeat split; try done.
    intros keys. by rewrite updateEach_cons, E.
Qed.

Lemma updateEach_completes notify keys s :
  (forall t, t ∈ keys -> exists v, newBlockedOf s t = Normal v) ->
  exists s', updateEach notify keys s = (Normal tt, s').
Proof.
  revert s. induction keys as [|k keys IH]; intros s Hall; [by eexists|].
  destruct (updateEach_next notify k s) as (r & s1 & s2 & E & Hin & _ & Hcons).
  rewrite Hcons.
  destruct (Hall k) as [v Hv]; [by apply elem_of_cons; left|].
  destruct r as [changed|].
  - apply IH. intros t Ht. rewrite (newBlockedOf_inputs s) by done.
    apply Hall. apply elem_of_cons. by right.
  - rewrite updateAutoBlock_eq, Hv in E.
    destruct (isNumber _); [done|]. by destruct (looseEq _ _).
Qed.

Lemma updateEach_evaluates notify keys s s' t :
  updateEach notify keys s = (Normal tt, s') ->
  t ∈ keys ->
  isNumber (getBlocked s t) = false ->
  newBlockedOf s t = Normal (getBlocked s' t).
Proof.
  revert s. induction keys as [|k keys IH]; intros s Hrun Hin Hnum.
  { by apply elem_of_nil in Hin. }
  destruct (updateEach_next notify k s) as (r & s1 & s2 & E & Hinp & Hsame & Hcons).
  rewrite Hcons in Hrun. destruct r as [changed|]; [|done].
  pose proof (updateEach_reevaluated s2 notify keys s2 _ _ Hrun
    (reevaluated_refl s2)) as [_ Hent].
  destruct (decide (t = k)) as [->|Hne].
  - pose proof (updateAutoBlock_stored _ _ _ _ E Hnum) as Hv.
    destruct (Hent k) as [Heq|[_ Hnew]].
    + by rewrite Heq, Hsame.
    + by rewrite <- (newBlockedOf_inputs s s2 k Hinp).
  - apply elem_of_cons in Hin as [?|Hin]; [done|].
    rewrite <- (newBlockedOf_inputs s s2 t Hinp). apply IH; [done..|].
    rewrite Hsame.
    assert (k <> t) as Hne' by congruence.
    by rewrite (updateAutoBlock_keeps_others k t _ Hne' s _ _ E eq_refl).
Qed.

Lemma updateEach_noop notify keys s :
  (forall t, t ∈ keys ->
     isNumber (getBlocked s t) = true \/
     newBlockedOf s t = Normal (getBlocked s t)) ->
  updateEach notify keys s = (Normal tt, s).
Proof.
  induction keys as [|k keys IH]; intros Hall; [done|].
  rewrite updateEach_cons, updateAutoBlock_eq.
  assert (updateEach notify keys s = (Normal tt, s)) as Hrest.
  { apply IH. intros t Ht. apply Hall. apply elem_of_cons. by right. }
  destruct (Hall k) as [Hn|Hv]; [by apply elem_of_cons; left|..].
  - by rewrite Hn.
  - destruct (isNumber (getBlocked s k)); [done|].
    rewrite Hv, (proj2 (looseEq_true _ _) eq_refl). done.
Qed.

Lemma newBlockedOf_defined s t :
  is_Some (countCookiesFromHost s t) ->
  is_Some (getProp t (trackers s)) ->
  exists v, newBlockedOf s t = Normal v.
Proof.
  intros [n Hn] [sites Hs]. unfold newBlockedOf. rewrite Hn, Hs.
  destruct (bool_decide (0 < n)%nat); by eexists.
Qed.

Lemma updateAutoBlock_result k s r s1 :
  updateAutoBlock k s = (r, s1) ->
  (r = Normal true /\ isNumber (getBlocked s k) = false /\
   exists v, newBlockedOf s k = Normal v /\ v <> getBlocked s k /\
     s1 = set_blocked (<[k := v]> (blocked s)) s) \/
  (r <> Normal true /\ s1 = s).
Proof.
  rewrite updateAutoBlock_eq.
  destruct (isNumber (getBlocked s k)) eqn:Hnum; [intros [= <- <-]; by right|].
  destruct (newBlockedOf s k) as [v|] eqn:Hv; [|intros [= <- <-]; by right].
  destruct (looseEq v (getBlocked s k)) eqn:E; intros [= <- <-]; [by right|].
  left. split; [done|]. split; [done|]. exists v. repeat split; try done.
  intros Heq. apply looseEq_true in Heq. congruence.
Qed.

Lemma updateEach_messages notify keys s r s' :
  updateEach notify keys s = (r, s') ->
  exists new : list (string * blockedVal),
    updateBlockSent s' = (new ++ updateBlockSent s)%list /\
    (forall t v, (t, v) ∈ new ->
       notify = true /\ getBlocked s t <> v /\ getBlocked s' t = v) /\
    (notify = true -> forall t,
       getBlocked s' t <> getBlocked s t -> (t, getBlocked s' t) ∈ new).
Proof.
  revert s. induction keys as [|k keys IH]; intros s Hrun.
  { injection Hrun as _ <-. exists []. split; [done|]. split.
    - by intros t v ?%elem_of_nil.
    - by intros _ t Hne. }
  rewrite updateEach_cons in Hrun.
  destruct (updateAutoBlock k s) as [r1 s1] eqn:E.
  destruct (updateAutoBlock_result _ _ _ _ E)
    as [(-> & Hnum & v & Hv & Hne & ->)|[Hr ->]].
  - (* the entry of [k] changed *)
    set (s1 := set_blocked (<[k := v]> (blocked s)) s) in *.
    assert (getBlocked s1 k = v) as Hk by apply getBlocked_set_eq.
    rewrite Hk in Hrun. simpl in Hrun.
    set (s2 := if notify
               then set_updateBlockSent ((k, v) :: updateBlockSent s1) s1
               else s1) in *.
    assert (policyInputs s2 = policyInputs s) as Hinp by (by destruct notify).
    assert (forall t, getBlocked s2 t = getBlocked s1 t) as Hsame
      by (by destruct notify).
    destruct (IH _ Hrun) as (new' & Hsent & P1 & P2).
    pose proof (updateEach_reevaluated s2 notify keys s2 _ _ Hrun
      (reevaluated_refl s2)) as [_ Hent].
    assert (getBlocked s' k = v) as Hfinal.
    { destruct (Hent k) as [Heq|[_ Hnew]].
      - by rewrite Heq, Hsame.
      - rewrite (newBlockedOf_inputs s s2 k Hinp), Hv in Hnew. by injection Hnew. }
    assert (forall t, t <> k -> getBlocked s2 t = getBlocked s t) as Hother.
    { intros t Ht. rewrite Hsame. by apply getBlocked_set_ne. }
    destruct notify; subst s2.
    + exists (new' ++ [(k, v)])%list. split; [|split].
      * rewrite Hsent. simpl. by rewrite <- app_assoc.
      * intros t w Hin. apply elem_of_app in Hin as [Hin|Hin].
        -- destruct (P1 t w Hin) as (_ & Hne2 & Hw). split; [done|]. split; [|done].
           destruct (decide (t = k)) as [->|Htk]; [|by rewrite <- Hother].
           exfalso. apply Hne2. by rewrite Hsame, Hk, <- Hw.
        -- apply list_elem_of_singleton in Hin. injection Hin as -> ->.
           repeat split; congruence.
      * intros _ t Hchanged. apply elem_of_app.
        destruct (decide (t = k)) as [->|Htk].
        -- right. rewrite Hfinal. by apply list_elem_of_singleton.
        -- left. apply P2; [done|]. by rewrite Hother.
    + exists new'. split; [by rewrite Hsent|]. split; [|done].
      intros t w Hin. by destruct (P1 t w Hin).
  - (* nothing written *)
    destruct r1 as [changed|].
    + assert (changed = false) as -> by (destruct changed; congruence).
      simpl in Hrun. by apply IH.
    + injection Hrun as _ <-. exists []. split; [done|]. split.
      * by intros t v ?%elem_of_nil.
      * by intros _ t Hne.
Qed.

Lemma engine_eta_threshold s : set_autoBlockThreshold (autoBlockThreshold s) s = s.
Proof. by destruct s. Qed.

(** X9. When the cookie service answers for every tracker of the ledger,
    [set_threshold] completes; it stores the threshold, gives every ledger
    tracker whose entry is not user-set the value the policy computes with
    the new threshold, and leaves the user-set entries and the entries of
    trackers outside the ledger as they were. *)
Theorem set_threshold_reevaluates threshold s :
  (forall t, t ∈ objectKeys (trackers s) -> is_Some (countCookiesFromHost s t)) ->
  exists s',
    set_threshold threshold s = (Normal tt, s') /\
    autoBlockThreshold s' = threshold /\
    (forall t, t ∈ objectKeys (trackers s) ->
       isNumber (getBlocked s t) = false ->
       newBlockedFor t s' = (Normal (getBlocked s' t), s')) /\
    (forall t, t ∉ objectKeys (trackers s) \/ isNumber (getBlocked s t) = true ->
       getBlocked s' t = getBlocked s t).
Proof.
  intros Hcookies. rewrite set_threshold_eq.
  set (s1 := set_autoBlockThreshold threshold s).
  destruct (updateEach_completes true (objectKeys (trackers s)) s1) as [s' Hrun].
  { intros t Ht. apply newBlockedOf_defined; [by apply Hcookies|].
    by apply objectKeys_getProp. }
  exists s'. split; [done|].
  pose proof (updateEach_keeps_inputs _ _ _ _ _ Hrun) as Hinp.
  split; [|split].
  - by injection Hinp as -> _ _ _.
  - intros t Ht Hnum. rewrite newBlockedFor_eq. f_equal.
    rewrite (newBlockedOf_inputs s1 s' t Hinp).
    by apply (updateEach_evaluates true _ s1 s' t Hrun).
  - intros t [Hout|Hnum].
    + exact (updateEach_keeps_others true _ t _ Hout s1 _ _ Hrun eq_refl).
    + destruct (getBlocked s t) as [| | |n] eqn:Hb; try done.
      exact (updateEach_keeps_number true _ t n s1 _ _ Hrun Hb).
Qed.

(** X10. [set_threshold] sends the page an ["update_block"] message for
    exactly the trackers whose stored value it changed, each with the new
    value, and no other message. *)
Theorem set_threshold_notifies threshold s :
  exists new : list (string * blockedVal),
    updateBlockSent (set_threshold threshold s).2
      = (new ++ updateBlockSent s)%list /\
    forall t v, (t, v) ∈ new <->
      getBlocked (set_threshold threshold s).2 t <> getBlocked s t /\
      v = getBlocked (set_threshold threshold s).2 t.
Proof.
  rewrite set_threshold_eq.
  set (s1 := set_autoBlockThreshold threshold s).
  destruct (updateEach true (objectKeys (trackers s)) s1) as [r s'] eqn:Hrun.
  destruct (updateEach_messages _ _ _ _ _ Hrun) as (new & Hsent & P1 & P2).
  exists new. split; [done|]. intros t v. simpl. split.
  - intros Hin. destruct (P1 t v Hin) as (_ & Hne & Hv).
    split; [|done]. rewrite Hv. intros Heq. apply Hne. exact (eq_sym Heq).
  - intros [Hne ->]. by apply P2.
Qed.

(** X11. Setting the same threshold again right after a [set_threshold]
    that completed changes nothing at all: no stored value, no message. *)
Theorem set_threshold_twice threshold s s' :
  set_threshold threshold s = (Normal tt, s') ->
  set_threshold threshold s' = (Normal tt, s').
Proof.
  rewrite !set_threshold_eq.
  set (s1 := set_autoBlockThreshold threshold s). intros Hrun.
  pose proof (updateEach_keeps_inputs _ _ _ _ _ Hrun) as Hinp.
  assert (autoBlockThreshold s' = threshold /\ trackers s' = trackers s) as [Hthr Htr].
  { by injection Hinp as -> -> _ _. }
  rewrite <- Hthr at 1. rewrite engine_eta_threshold, Htr.
  apply updateEach_noop. intros t Ht.
  destruct (isNumber (getBlocked s1 t)) eqn:Hnum.
  - left. destruct (getBlocked s1 t) as [| | |n] eqn:Hb; try done.
    by rewrite (updateEach_keeps_number true _ t n s1 _ _ Hrun Hb).
  - right. rewrite (newBlockedOf_inputs s1 s' t Hinp).
    by apply (updateEach_evaluates true _ s1 s' t Hrun).
Qed.

(** X12. [reset] stores the default threshold and leaves no user-set entry,
    whether or not it completes; the entries of trackers outside the ledger
    are [undefined]; no message is sent to the page. When the cookie
    service answers for every ledger tracker it completes and every ledger
    tracker holds the value the policy computes. *)
Theorem reset_clears_overrides s :
  autoBlockThreshold (reset s).2 = DEFAULT_AUTO_BLOCK_THRESHOLD /\
  (forall t, isNumber (getBlocked (reset s).2 t) = false) /\
  (forall t, t ∉ objectKeys (trackers s) -> getBlocked (reset s).2 t = BUndefined) /\
  updateBlockSent (reset s).2 = updateBlockSent s /\
  ((forall t, t ∈ objectKeys (trackers s) -> is_Some (countCookiesFromHost s t)) ->
   (reset s).1 = Normal tt /\
   forall t, t ∈ objectKeys (trackers s) ->
     newBlockedFor t (reset s).2 = (Normal (getBlocked (reset s).2 t), (reset s).2)).
Proof.
  set (s1 := set_blocked ∅ (set_autoBlockThreshold DEFAULT_AUTO_BLOCK_THRESHOLD s)).
  assert (reset s = updateEach false (objectKeys (trackers s)) s1) as -> by done.
  destruct (updateEach false (objectKeys (trackers s)) s1) as [r s'] eqn:Hrun.
  pose proof (updateEach_keeps_inputs _ _ _ _ _ Hrun) as Hinp.
  assert (forall t, getBlocked s1 t = BUndefined) as Hempty.
  { intros t. unfold getBlocked, s1; fields. by rewrite lookup_empty. }
  pose proof (updateEach_reevaluated s1 false _ s1 _ _ Hrun (reevaluated_refl s1))
    as [_ Hent].
  simpl. split; [by injection Hinp as -> _ _ _|]. split; [|split; [|split]].
  - intros t. destruct (Hent t) as [->|[_ Hnew]]; [by rewrite Hempty|].
    by apply newBlockedOf_not_number in Hnew.
  - intros t Hout.
    by rewrite (updateEach_keeps_others false _ t _ Hout s1 _ _ Hrun (Hempty t)).
  - destruct (updateEach_messages _ _ _ _ _ Hrun) as (new & Hsent & P1 & _).
    rewrite Hsent. destruct new as [|[t v] new]; [done|].
    destruct (P1 t v) as [? _]; [apply elem_of_cons; by left|done].
  - intros Hcookies.
    destruct (updateEach_completes false (objectKeys (trackers s)) s1) as [s2 Hrun2].
    { intros t Ht. apply newBlockedOf_defined; [by apply Hcookies|].
      by apply objectKeys_getProp. }
    rewrite Hrun in Hrun2. injection Hrun2 as -> ->. split; [done|].
    intros t Ht. rewrite newBlockedFor_eq. f_equal.
    rewrite (newBlockedOf_inputs s1 s2 t Hinp).
    apply (updateEach_evaluates false _ s1 s2 t Hrun Ht). by rewrite Hempty.
Qed.

(** ** Blocks set by hand *)

Lemma run_keeps_number events t n s :
  Forall (fun e => userAction e = false) events ->
  getBlocked s t = BNumber n -> getBlocked (run s events) t = BNumber n.
Proof.
  intros Hauto. revert s.
  induction Hauto as [|e events He _ IH]; intros s Hn; [done|].
  simpl. apply IH. by apply step_keeps_number.
Qed.

Lemma shouldLoad_number_verdict r s tracker site n :
  thirdParty s r tracker site ->
  getBlocked s tracker = BNumber n ->
  (shouldLoad r s).1 =
    Normal (if bool_decide (tracker ∈ potentialTrackers s) then ACCEPT
            else if n =? 0 then ACCEPT else REJECT_REQUEST) /\
  getBlocked (shouldLoad r s).2 tracker = BNumber n /\
  (tracker ∉ potentialTrackers s ->
   unCookieNext (shouldLoad r s).2 = unCookieNext s).
Proof.
  intros Hreq Hn.
  rewrite (shouldLoad_thirdParty _ _ _ _ Hreq).
  pose proof (shouldLoad_track_outcome tracker site s) as Hout.
  rewrite Hn in Hout. simpl in Hout.
  assert ((potentialTrackers (shouldLoad_track tracker site s).2,
           unCookieNext (shouldLoad_track tracker site s).2)
          = (potentialTrackers s, unCookieNext s)) as Hf.
  { apply (shouldLoad_track_keeps_fields
      (fun s => (potentialTrackers s, unCookieNext s))
      (fun p => p = (potentialTrackers s, unCookieNext s)) tracker site
      (fun _ _ => eq_refl) (fun _ _ => eq_refl) (fun _ _ => eq_refl)
      (fun _ _ => eq_refl) s _ _ (surjective_pairing _)). done. }
  assert (getBlocked (shouldLoad_track tracker site s).2 tracker = BNumber n) as Hn1.
  { unfold shouldLoad_track.
    match goal with |- getBlocked (?m s).2 _ = _ =>
      assert (preserves (fun s => getBlocked s tracker = BNumber n) m) as Hm
    end.
    { keeps; try (by apply preserves_modify). apply updateAutoBlock_keeps_number. }
    by eapply Hm; [apply surjective_pairing|]. }
  destruct (shouldLoad_track tracker site s) as [[[]|] s1]; simpl in *.
  2: { destruct (bool_decide (tracked s tracker site)); done. }
  injection Hf as Hpot Hslot.
  rewrite shouldLoad_block_eq, Hn1, Hpot. simpl.
  destruct (bool_decide (tracker ∈ potentialTrackers s)) eqn:Hp; simpl.
  - split; [done|]. split; [done|]. intros Hnot.
    apply bool_decide_eq_true in Hp. done.
  - destruct (n =? 0); simpl; by rewrite ?Hslot.
Qed.

Lemma toggle_block_entry t s :
  getBlocked (toggle_block t s).2 t
    = BNumber (if truthy (getBlocked s t) then 0 else 1).
Proof. unfold toggle_block, bind, modify, emit_update_block; simpl.
  unfold getBlocked at 1; fields. by rewrite lookup_insert_eq. Qed.

(** X13. [toggle_block] flips whether the tracker is blocked and makes the
    entry a number (user-set); entries of other trackers are untouched and
    the page is sent the new value. Toggling twice gives 1 to a tracker
    that was blocked in any way and 0 to one that was not: a tracker
    that the policy had at ["cookie"] does not come back to ["cookie"]. *)
Theorem toggle_block_flips t s :
  let s1 := (toggle_block t s).2 in
  let s2 := (toggle_block t s1).2 in
  truthy (getBlocked s1 t) = negb (truthy (getBlocked s t)) /\
  isNumber (getBlocked s1 t) = true /\
  (forall t', t' <> t -> getBlocked s1 t' = getBlocked s t') /\
  updateBlockSent s1 = (t, getBlocked s1 t) :: updateBlockSent s /\
  getBlocked s2 t = BNumber (if truthy (getBlocked s t) then 1 else 0).
Proof.
  intros s1 s2. subst s1 s2. rewrite !toggle_block_entry.
  destruct (truthy (getBlocked s t)) eqn:Ht; simpl.
  - repeat split; try done.
    + intros t' Hne. unfold toggle_block, bind, modify, emit_update_block; simpl.
      unfold getBlocked at 1; fields. by rewrite lookup_insert_ne.
    + unfold toggle_block, bind, modify, emit_update_block; simpl.
      unfold getBlocked at 1; fields. by rewrite lookup_insert_eq, Ht.
  - repeat split; try done.
    + intros t' Hne. unfold toggle_block, bind, modify, emit_update_block; simpl.
      unfold getBlocked at 1; fields. by rewrite lookup_insert_ne.
    + unfold toggle_block, bind, modify, emit_update_block; simpl.
      unfold getBlocked at 1; fields. by rewrite lookup_insert_eq, Ht.
Qed.

(** X14. Once the user has blocked by hand a tracker that was not blocked,
    every third-party request to it is rejected, with nothing written to
    its entry or to [unCookieNext], for as long as the user does not toggle
    it again or reset: whatever requests, threshold changes, reloads and
    cookie changes happen in between. (A potential tracker is excepted:
    its requests are accepted.) *)
Theorem manual_block_rejects t s events r site :
  truthy (getBlocked s t) = false ->
  Forall (fun e => userAction e = false) events ->
  let s' := run (toggle_block t s).2 events in
  thirdParty s' r t site ->
  t ∉ potentialTrackers s' ->
  (shouldLoad r s').1 = Normal REJECT_REQUEST /\
  getBlocked (shouldLoad r s').2 t = BNumber 1 /\
  unCookieNext (shouldLoad r s').2 = unCookieNext s'.
Proof.
  intros Hfalsy Hauto s' Hreq Hpot.
  assert (getBlocked s' t = BNumber 1) as Hn.
  { apply run_keeps_number; [done|]. by rewrite toggle_block_entry, Hfalsy. }
  destruct (shouldLoad_number_verdict r s' t site 1 Hreq Hn) as (Hv & He & Hs).
  rewrite (bool_decide_eq_false_2 _ Hpot) in Hv. auto.
Qed.

(** X15. Once the user has unblocked by hand a tracker that was blocked
    (by the policy or by hand), no third-party request to it is rejected
    and the policy never blocks it again, on however many sites it is
    seen, until the user toggles it again or resets; its requests keep
    their cookies unless it is a potential tracker. *)
Theorem manual_unblock_accepts t s events r site :
  truthy (getBlocked s t) = true ->
  Forall (fun e => userAction e = false) events ->
  let s' := run (toggle_block t s).2 events in
  thirdParty s' r t site ->
  (shouldLoad r s').1 = Normal ACCEPT /\
  getBlocked (shouldLoad r s').2 t = BNumber 0 /\
  (t ∉ potentialTrackers s' ->
   unCookieNext (shouldLoad r s').2 = unCookieNext s').
Proof.
  intros Htruthy Hauto s' Hreq.
  assert (getBlocked s' t = BNumber 0) as Hn.
  { apply run_keeps_number; [done|]. by rewrite toggle_block_entry, Htruthy. }
  destruct (shouldLoad_number_verdict r s' t site 0 Hreq Hn) as (Hv & He & Hs).
  split; [|done]. rewrite Hv. by destruct (bool_decide _).
Qed.

(** ** The reload window *)

Lemma shouldLoad_keeps_readOnly (Q : _ -> Prop) r :
  preserves (fun s => Q (readOnlyToRequests s)) (shouldLoad r).
Proof.
  unfold shouldLoad, shouldLoad_try. keeps.
  - by apply (shouldLoad_track_keeps_fields readOnlyToRequests).
  - by apply (shouldLoad_block_keeps_fields readOnlyToRequests).
Qed.

Lemma step_timerView e s :
  e <> EReload -> (forall ms, e <> EElapse ms) ->
  timerView (step s e) = timerView s.
Proof.
  intros Hr He.
  assert (forall A (m : JS A),
    preserves (fun s0 => timerView s0 = timerView s) m ->
    timerView (m s).2 = timerView s) as Hkeep.
  { intros A m Hm. by eapply Hm; [apply surjective_pairing|]. }
  destruct e; cbn [step]; try done; try (by destruct (He ms)); apply Hkeep.
  { apply (shouldLoad_keeps_readOnly
      (fun p => (p.1.2, p.1.1.2, p.1.1.1.2) = timerView s)). }
  all: unfold unCookier, set_threshold, toggle_block, emit_update_block, reset,
      updateAllAutoBlocked;
    keeps; try (by apply preserves_modify);
    by apply (updateEach_keeps_fields timerView (fun v => v = timerView s)).
Qed.

Lemma elapse_pending ms s T :
  timeouts s = [T] ->
  timerView (elapse ms s).2 =
    if bool_decide (T <= now s + ms) then (false, [], now s + ms)
    else (acceptForReload s, [T], now s + ms).
Proof.
  intros HT. unfold elapse, bind, modify, gets, timerView; simpl. rewrite HT. simpl.
  unfold bind, onReload_timeout, modify, ret; simpl.
  case_bool_decide as Hdue; simpl.
  - rewrite filter_cons_False by lia. done.
  - rewrite filter_cons_True by lia. done.
Qed.

Lemma elapse_idle ms s :
  timeouts s = [] ->
  timerView (elapse ms s).2 = (acceptForReload s, [], now s + ms).
Proof.
  intros HT. unfold elapse, bind, modify, gets, timerView; simpl. by rewrite HT.
Qed.

Lemma elapse_or_not e : (exists ms, e = EElapse ms) \/ (forall ms, e <> EElapse ms).
Proof. destruct e; try (by right); left; by eexists. Qed.

Lemma elapsed_nonneg events : Forall noReload events -> 0 <= elapsed events.
Proof.
  induction 1 as [|e events He _ IH]; simpl; [done|].
  destruct e; simpl in *; lia.
Qed.

Lemma window_closed events s :
  Forall noReload events ->
  acceptForReload s = false -> timeouts s = [] ->
  acceptForReload (run s events) = false /\ timeouts (run s events) = [].
Proof.
  intros Hev. revert s.
  induction Hev as [|e events He _ IH]; intros s Hf Ht; [done|].
  simpl. destruct (elapse_or_not e) as [[ms ->]|Hne].
  - pose proof (elapse_idle ms s Ht) as Hv. injection Hv as Hf' Ht' _.
    apply IH; simpl; congruence.
  - assert (timerView (step s e) = timerView s) as Hv.
    { apply step_timerView; [by intros ->|done]. }
    injection Hv as Hf' Ht' _. apply IH; congruence.
Qed.

Lemma window_open events s T :
  Forall noReload events ->
  acceptForReload s = true -> timeouts s = [T] -> now s < T ->
  (now s + elapsed events < T ->
   acceptForReload (run s events) = true /\ timeouts (run s events) = [T]) /\
  (T <= now s + elapsed events ->
   acceptForReload (run s events) = false /\ timeouts (run s events) = []).
Proof.
  intros Hev. revert s.
  induction Hev as [|e events He Hev IH]; intros s Hf Ht Hnow.
  { simpl. split; [done|]. intros ?. exfalso. lia. }
  change (run s (e :: events)) with (run (step s e) events).
  destruct (elapse_or_not e) as [[ms ->]|Hne].
  - simpl in He. pose proof (elapse_pending ms s T Ht) as Hv. cbn [step elapsed].
    case_bool_decide as Hdue.
    + injection Hv as Hf' Ht' Hn'.
      pose proof (elapsed_nonneg events Hev).
      split; [intros ?; exfalso; lia|]. intros _.
      by apply window_closed.
    + injection Hv as Hf' Ht' Hn'.
      destruct (IH (elapse ms s).2) as [IH1 IH2]; [congruence|done|lia|].
      rewrite Hn' in IH1, IH2. split; intros ?; [apply IH1|apply IH2]; lia.
  - assert (timerView (step s e) = timerView s) as Hv.
    { apply step_timerView; [by intros ->|done]. }
    injection Hv as Hf' Ht' Hn'.
    assert (elapsed (e :: events) = elapsed events) as ->.
    { destruct e; try done. by destruct (Hne ms). }
    destruct (IH (step s e)) as [IH1 IH2]; [congruence..|].
    rewrite Hn' in IH1, IH2. done.
Qed.

(** X16. After a reload made when no timeout is pending, the reload flag is
    raised for as long as less than [RELOAD_AUTO_ACCEPT_DURATION]
    milliseconds have passed, whatever else happens short of another
    reload, and is down, with no timeout left, once that time has passed. *)
Theorem single_reload_window s events :
  timeouts s = [] ->
  Forall noReload events ->
  let s' := run (step s EReload) events in
  (elapsed events < RELOAD_AUTO_ACCEPT_DURATION -> acceptForReload s' = true) /\
  (RELOAD_AUTO_ACCEPT_DURATION <= elapsed events ->
   acceptForReload s' = false /\ timeouts s' = []).
Proof.
  intros Ht Hev s'. subst s'.
  destruct (window_open events (step s EReload) (now s + RELOAD_AUTO_ACCEPT_DURATION)
    Hev) as [H1 H2].
  - done.
  - simpl. by rewrite Ht.
  - simpl. unfold RELOAD_AUTO_ACCEPT_DURATION. lia.
  - assert (now (step s EReload) = now s) as Hn by done. rewrite Hn in H1, H2.
    split; intros ?; [apply H1|apply H2]; lia.
Qed.

(** ** Shutdown and the next session *)

Lemma deleteProp_filter {V} k (o : list (string * V)) :
  deleteProp k o = filter (fun p => p.1 <> k) o.
Proof.
  induction o as [|[k' v] o IH]; simpl; [done|].
  destruct (decide (k = k')) as [->|Hne].
  - rewrite filter_cons_False by (simpl; auto). done.
  - rewrite filter_cons_True by (simpl; congruence). by rewrite IH.
Qed.

Lemma getProp_unique {V} k (v : V) o :
  NoDup (objectKeys o) -> (k, v) ∈ o -> getProp k o = Some v.
Proof.
  unfold objectKeys. induction o as [|[k' v'] o IH]; simpl.
  { by intros _ ?%elem_of_nil. }
  intros [Hnotin Hnd]%NoDup_cons Hin.
  apply elem_of_cons in Hin as [[= <- <-]|Hin].
  - by rewrite decide_True.
  - destruct (decide (k = k')) as [->|Hne]; [|by apply IH].
    exfalso. apply Hnotin. apply list_elem_of_fmap. by exists (k', v).
Qed.

Lemma filter_ext_elem {A} (P Q : A -> Prop) `{!forall x, Decision (P x)}
    `{!forall x, Decision (Q x)} (l : list A) :
  (forall x, x ∈ l -> (P x <-> Q x)) -> filter P l = filter Q l.
Proof.
  induction l as [|x l IH]; intros Hext; [done|].
  assert (filter P l = filter Q l) as Hrest.
  { apply IH. intros y Hy. apply Hext. apply elem_of_cons. by right. }
  destruct (decide (P x)) as [HP|HP].
  - rewrite !filter_cons_True; [by rewrite Hrest|..]; try done.
    apply Hext; [apply elem_of_cons; by left|done].
  - rewrite !filter_cons_False; [done|..]; try done.
    intros HQ. apply HP. apply Hext; [apply elem_of_cons; by left|done].
Qed.

Lemma objectKeys_filter_NoDup {V} (P : string * V -> Prop)
    `{!forall x, Decision (P x)} o :
  NoDup (objectKeys o) -> NoDup (objectKeys (filter P o)).
Proof.
  unfold objectKeys. induction o as [|[k v] o IH]; simpl; [done|].
  intros [Hnotin Hnd]%NoDup_cons.
  destruct (decide (P (k, v))).
  - rewrite filter_cons_True by done. simpl. apply NoDup_cons. split; [|by apply IH].
    intros Hin. apply Hnotin.
    apply list_elem_of_fmap in Hin as ([k' v'] & -> & Hin).
    apply list_elem_of_filter in Hin as [_ Hin].
    apply list_elem_of_fmap. by exists (k', v').
  - rewrite filter_cons_False by done. by apply IH.
Qed.

Lemma filter_id {A} (P : A -> Prop) `{!forall x, Decision (P x)} (l : list A) :
  (forall x, x ∈ l -> P x) -> filter P l = l.
Proof.
  induction l as [|x l IH]; intros Hall; [done|].
  rewrite filter_cons_True by (apply Hall, elem_of_cons; by left).
  f_equal. apply IH. intros y Hy. apply Hall, elem_of_cons. by right.
Qed.

Lemma engine_eta_trackers s : set_trackers (trackers s) s = s.
Proof. by destruct s. Qed.

Lemma unload_each_filter keys s :
  NoDup keys ->
  NoDup (objectKeys (trackers s)) ->
  (forall k, k ∈ keys -> k ∈ objectKeys (trackers s)) ->
  unload_each keys s =
    (Normal tt,
     set_trackers
       (filter (fun p => ~ (p.1 ∈ keys /\ size p.2 = 1%nat)) (trackers s)) s).
Proof.
  intros Hkeys. revert s.
  induction Hkeys as [|k keys Hfresh Hkeys IH]; intros s Hnd Hsub.
  { simpl. unfold ret. f_equal. rewrite filter_id; [by rewrite engine_eta_trackers|].
    intros p _ [Hin _]. by apply elem_of_nil in Hin. }
  destruct (objectKeys_getProp k (trackers s)) as [sites Hs];
    [apply Hsub, elem_of_cons; by left|].
  assert (forall p, p ∈ trackers s -> p.1 = k -> p.2 = sites) as Honly.
  { intros [k' v] Hin Hk. simpl in *. subst k'.
    pose proof (getProp_unique _ _ _ Hnd Hin) as Hv. congruence. }
  cbn [unload_each]. unfold bind at 1 2. unfold gets, orThrow. rewrite Hs.
  unfold ret at 1. cbn [fst snd].
  case_bool_decide as Hone.
  - unfold bind, modify. rewrite IH; cbn [trackers set_trackers]; fields.
    + f_equal. f_equal.
      rewrite deleteProp_filter, list_filter_filter.
      apply filter_ext_elem. intros p Hp. simpl. split.
      * intros [Hrest Hk] [Hin Hsz]. apply Hrest. split; [|done].
        apply elem_of_cons in Hin as [?|?]; done.
      * intros Hno. split.
        -- intros [Hin Hsz]. apply Hno. split; [apply elem_of_cons; by right|done].
        -- intros Hk. apply Hno. split; [apply elem_of_cons; by left|].
           by rewrite (Honly p Hp Hk).
    + rewrite deleteProp_filter. by apply objectKeys_filter_NoDup.
    + intros k' Hk'. rewrite deleteProp_filter.
      assert (k' ∈ objectKeys (trackers s)) as Hin
        by (apply Hsub, elem_of_cons; by right).
      unfold objectKeys in *.
      apply list_elem_of_fmap in Hin as ([k0 v0] & -> & Hin).
      apply list_elem_of_fmap. exists (k0, v0). split; [done|].
      apply list_elem_of_filter. split; [|done]. simpl. by intros ->.
  - unfold bind, ret. rewrite IH; [|done|].
    + f_equal. f_equal. apply filter_ext_elem. intros p Hp. simpl. split.
      * intros Hrest [Hin Hsz]. apply elem_of_cons in Hin as [Hk|Hin].
        -- apply Hone. by rewrite <- (Honly p Hp Hk).
        -- by apply Hrest.
      * intros Hno [Hin Hsz]. apply Hno. split; [apply elem_of_cons; by right|done].
    + intros k' Hk'. apply Hsub, elem_of_cons. by right.
Qed.

Lemma unload_trackers_eq s :
  uniqueKeys s ->
  unload_trackers s = (Normal tt, set_trackers (withoutSingles (trackers s)) s).
Proof.
  intros Hnd. unfold unload_trackers, bind, gets.
  rewrite unload_each_filter; [|done..]. f_equal. f_equal.
  apply filter_ext_elem. intros [k v] Hp. simpl. split.
  - intros Hno Hsz. apply Hno. split; [|done].
    unfold objectKeys. apply list_elem_of_fmap. by exists (k, v).
  - intros Hsz [_ ?]. done.
Qed.

Lemma getProp_filter {V} (P : string * V -> Prop) `{!forall x, Decision (P x)}
    k o :
  NoDup (objectKeys o) ->
  getProp k (filter P o) =
    match getProp k o with
    | Some v => if decide (P (k, v)) then Some v else None
    | None => None
    end.
Proof.
  unfold objectKeys. induction o as [|[k' v'] o IH]; simpl; [done|].
  intros [Hnotin Hnd]%NoDup_cons.
  destruct (decide (k = k')) as [->|Hne].
  - destruct (decide (P (k', v'))) as [HP|HP].
    + rewrite filter_cons_True by done. simpl. by rewrite decide_True.
    + rewrite filter_cons_False by done.
      destruct (getProp k' (filter P o)) as [v|] eqn:E; [|done].
      exfalso. apply Hnotin. apply getProp_elem_of in E.
      apply list_elem_of_filter in E as [_ E].
      apply list_elem_of_fmap. by exists (k', v).
  - destruct (decide (P (k', v'))) as [HP|HP].
    + rewrite filter_cons_True by done. simpl. rewrite decide_False by done.
      by apply IH.
    + rewrite filter_cons_False by done. by apply IH.
Qed.

(** X17. At unload, for a ledger with one entry per tracker, the clean-up
    completes and removes exactly the trackers seen on a single site: such
    a tracker is no longer in [storage.trackers], every other tracker keeps
    its sites, the order of the entries and everything else in the state
    are as before; running the clean-up again changes nothing. *)
Theorem unload_drops_single_site_trackers s :
  uniqueKeys s ->
  let s' := set_trackers (withoutSingles (trackers s)) s in
  unload_trackers s = (Normal tt, s') /\
  (forall t, getProp t (trackers s') =
     match getProp t (trackers s) with
     | Some sites => if decide (size sites = 1%nat) then None else Some sites
     | None => None
     end) /\
  unload_trackers s' = (Normal tt, s').
Proof.
  intros Hnd s'. split; [by apply unload_trackers_eq|]. split.
  - intros t. subst s'. cbn [trackers set_trackers]; fields.
    unfold withoutSingles. rewrite getProp_filter by done.
    destruct (getProp t (trackers s)) as [sites|]; [|done]. simpl.
    destruct (decide (size sites = 1%nat)); [by rewrite decide_False by auto|].
    by rewrite decide_True.
  - rewrite unload_trackers_eq.
    + f_equal. subst s'. unfold set_trackers; simpl. f_equal.
      unfold withoutSingles. rewrite list_filter_filter.
      apply filter_ext_elem. intros p _. tauto.
    + unfold uniqueKeys. subst s'. cbn [trackers set_trackers]; fields.
      by apply objectKeys_filter_NoDup.
Qed.

Lemma objectKeys_setProp {V} k (v : V) o :
  objectKeys (setProp k v o) =
    if decide (k ∈ objectKeys o) then objectKeys o else (objectKeys o ++ [k])%list.
Proof.
  unfold objectKeys. induction o as [|[k' v'] o IH]; [done|].
  cbn [setProp]. destruct (decide (k = k')) as [->|Hne].
  - rewrite decide_True; [done|]. apply elem_of_cons. by left.
  - rewrite fmap_cons, IH. cbn [fst].
    destruct (decide (k ∈ o.*1)) as [Hin|Hout].
    + rewrite decide_True; [done|]. rewrite fmap_cons. apply elem_of_cons. by right.
    + rewrite decide_False; [done|]. rewrite fmap_cons.
      intros [?|?]%elem_of_cons; done.
Qed.

Lemma setProp_uniqueKeys {V} k (v : V) o :
  NoDup (objectKeys o) -> NoDup (objectKeys (setProp k v o)).
Proof.
  intros Hnd. rewrite objectKeys_setProp. destruct (decide _) as [|Hout]; [done|].
  apply NoDup_app. split; [done|]. split.
  - intros x Hx ?%list_elem_of_singleton. by subst.
  - apply NoDup_singleton.
Qed.

(** The ledger keeps one entry per tracker through every event. *)
Lemma step_uniqueKeys e s : uniqueKeys s -> uniqueKeys (step s e).
Proof.
  intros Hs. unfold uniqueKeys in *.
  assert (forall A (m : JS A),
    preserves (fun s => NoDup (objectKeys (trackers s))) m ->
    NoDup (objectKeys (trackers (m s).2))) as Hkeep.
  { intros A m Hm. by eapply Hm; [apply surjective_pairing|]. }
  destruct e; cbn [step]; try exact Hs; apply Hkeep.
  { unfold shouldLoad, shouldLoad_try. keeps.
    - unfold shouldLoad_track. keeps; try (by apply preserves_modify);
        try (apply preserves_modify; intros s0 Hs0; fields;
             by apply setProp_uniqueKeys).
      by apply (updateAutoBlock_keeps_fields trackers (fun o => NoDup (objectKeys o))).
    - by apply (shouldLoad_block_keeps_fields trackers (fun o => NoDup (objectKeys o))). }
  all: unfold unCookier, set_threshold, toggle_block, emit_update_block, reset,
      updateAllAutoBlocked, onReload, elapse;
    keeps; try (by apply preserves_modify);
    first [ by apply (updateEach_keeps_fields trackers (fun o => NoDup (objectKeys o)))
          | by apply (fireDue_keeps_fields trackers (fun o => NoDup (objectKeys o))) ].
Qed.

Lemma run_uniqueKeys events s : uniqueKeys s -> uniqueKeys (run s events).
Proof.
  revert s. induction events as [|e events IH]; intros s Hs; [done|].
  simpl. by apply IH, step_uniqueKeys.
Qed.

(** X18. The next session of a profile (clean-up at unload, then [main])
    starts with the same threshold and the same stored levels, but with
    the ledger without its single-site trackers, and with [allTracked]
    rebuilt from that ledger: a domain is in [allTracked] exactly when it
    is a site of a tracker that was seen on a number of sites other than
    one. Nothing is pending and the reload flag is down. *)
Theorem restart_forgets_single_sites s :
  uniqueKeys s ->
  trackers (restart s) = withoutSingles (trackers s) /\
  autoBlockThreshold (restart s) = autoBlockThreshold s /\
  (forall t, getBlocked (restart s) t = getBlocked s t) /\
  (forall site, site ∈ allTracked (restart s) <->
     exists t sites, getProp t (trackers s) = Some sites /\
       size sites <> 1%nat /\ site ∈ sites) /\
  unCookieNext (restart s) = None /\
  acceptForReload (restart s) = false.
Proof.
  intros Hnd. unfold restart. rewrite (unload_trackers_eq s Hnd).
  cbn [snd main trackers autoBlockThreshold allTracked unCookieNext
       acceptForReload]; fields. simpl.
  repeat split; try done.
  - intros Hin. apply elem_of_union_list in Hin as (sites & Hin & Hsite).
    apply list_elem_of_fmap in Hin as ([t sites'] & -> & Hin). simpl in *.
    apply list_elem_of_filter in Hin as [Hsz Hin]. simpl in Hsz.
    exists t, sites'. split; [by apply getProp_unique|done].
  - intros (t & sites & Hs & Hsz & Hsite).
    apply elem_of_union_list. exists sites. split; [|done].
    apply list_elem_of_fmap. exists (t, sites). split; [done|].
    apply list_elem_of_filter. split; [done|]. by apply getProp_elem_of.
Qed.

(** ** The domain preferences *)

Lemma dropSpaces_blank l : blank l -> dropSpaces l = [].
Proof. induction 1 as [|c l Hc _ IH]; simpl; [done|]. by rewrite Hc. Qed.

Lemma dropSpaces_app_blank w l : blank w -> dropSpaces (w ++ l) = dropSpaces l.
Proof. induction 1 as [|c w Hc _ IH]; simpl; [done|]. by rewrite Hc. Qed.

Lemma dropSpaces_head l :
  (forall c, head l = Some c -> isSpace c = false) -> dropSpaces l = l.
Proof. destruct l as [|c l]; [done|]. intros Hc. simpl. by rewrite (Hc c). Qed.

Lemma dropSpaces_suffix l :
  exists w, blank w /\ l = (w ++ dropSpaces l)%list /\
    forall c, head (dropSpaces l) = Some c -> isSpace c = false.
Proof.
  induction l as [|c l (w & Hw & Hl & Hhd)]; simpl.
  - exists []. split; [constructor|]. done.
  - destruct (isSpace c) eqn:Hc.
    + exists (c :: w). split; [by constructor|]. split; [|done].
      simpl. by rewrite <- Hl.
    + exists []. split; [constructor|]. split; [done|]. by intros ? [= <-].
Qed.

Lemma trim_blank l : blank l -> trim l = [].
Proof. intros Hl. unfold trim. by rewrite (dropSpaces_blank l Hl). Qed.

Lemma trim_decompose l :
  exists lead trail,
    blank lead /\ blank trail /\ l = (lead ++ trim l ++ trail)%list /\
    trimmed (trim l).
Proof.
  unfold trim, trimmed. rewrite last_reverse.
  destruct (dropSpaces_suffix l) as (w0 & Hw0 & Hl0 & Hhd0).
  destruct (dropSpaces_suffix (reverse (dropSpaces l))) as (w & Hw & Hl & Hhd).
  set (d := dropSpaces l) in *.
  set (e := dropSpaces (reverse d)) in *.
  assert (d = (reverse e ++ reverse w)%list) as Hd.
  { rewrite <- reverse_app, <- Hl. by rewrite reverse_involutive. }
  exists w0, (reverse w). split; [done|]. split; [by apply Forall_reverse|].
  split; [by rewrite <- Hd|]. split; [|done].
  intros c Hc. apply Hhd0. rewrite Hd.
  apply head_Some in Hc as [r Hr]. by rewrite Hr.
Qed.

Lemma trim_framed lead body trail :
  blank lead -> blank trail -> trimmed body ->
  trim (lead ++ body ++ trail) = body.
Proof.
  intros Hlead Htrail [Hhd Hlast]. unfold trim.
  rewrite (dropSpaces_app_blank _ _ Hlead).
  destruct body as [|c body].
  { simpl. rewrite (dropSpaces_blank _ Htrail). done. }
  assert (isSpace c = false) as Hc by (by apply Hhd).
  assert (dropSpaces ((c :: body) ++ trail) = ((c :: body) ++ trail)%list) as ->.
  { simpl. by rewrite Hc. }
  rewrite reverse_app, dropSpaces_app_blank by (by apply Forall_reverse).
  rewrite dropSpaces_head; [by rewrite reverse_involutive|].
  intros c'. rewrite head_reverse. apply Hlast.
Qed.

Lemma space_not_comma c : isSpace c = true -> isComma c = false.
Proof.
  unfold isSpace, isComma. intros Hs.
  destruct (Ascii.eqb c (Ascii.ascii_of_nat 44)) eqn:E; [|done].
  apply Ascii.eqb_eq in E. subst c. done.
Qed.

(** every piece of a trimmed value is comma-free and trimmed *)
Lemma splitCommas_tidy l : forall skip piece ws,
  commaFree piece -> blank ws -> trimmed (reverse piece) ->
  (skip = true -> piece = [] /\ ws = []) ->
  (piece = [] -> ws = [] /\
     (skip = false -> forall c, head l = Some c -> isSpace c = false)) ->
  (forall c, last l = Some c -> isSpace c = false) ->
  (l = [] -> ws = []) ->
  Forall (fun p => commaFree p /\ trimmed p) (splitCommas skip piece ws l).
Proof.
  induction l as [|c l IH]; intros skip piece ws Hcf Hws Htr Hskip Hempty Hlast Hnil.
  { simpl. rewrite (Hnil eq_refl). simpl. constructor; [|constructor].
    split; [|done]. by apply Forall_reverse. }
  assert (forall c', last l = Some c' -> isSpace c' = false) as Hlast'.
  { intros c' Hc'. apply Hlast. destruct l; [done|]. by rewrite last_cons_cons. }
  assert (isSpace c = true -> l <> []) as Hmore.
  { intros Hc ->. by rewrite (Hlast c eq_refl) in Hc. }
  cbn [splitCommas]. destruct (isComma c) eqn:Hcomma.
  - constructor.
    + split; [by apply Forall_reverse|done].
    + apply IH; try done; try constructor; try (by intros ? [=]).
  - destruct (isSpace c) eqn:Hspace.
    + assert (l <> []) as Hl by auto.
      destruct skip.
      * destruct (Hskip eq_refl) as [-> ->]. apply IH; done.
      * apply IH; try done.
        -- by constructor.
        -- intros ->. destruct (Hempty eq_refl) as [_ Hhd].
           by rewrite (Hhd eq_refl c eq_refl) in Hspace.
    + apply IH; try done.
      * constructor; [done|]. apply Forall_app. split; [|done].
        eapply Forall_impl; [exact Hws|]. apply space_not_comma.
      * constructor.
      * destruct Htr as [Hhd Hl]. split.
        -- intros c'. rewrite head_reverse. destruct piece as [|p piece].
           ++ destruct (Hempty eq_refl) as [-> _]. by intros [= <-].
           ++ rewrite head_reverse in Hhd. intros Hc'. apply Hhd.
              rewrite <- Hc'. rewrite app_comm_cons.
              rewrite !last_app. by destruct (last (p :: piece)) eqn:E; [|apply last_None in E].
        -- intros c'. rewrite last_reverse. by intros [= <-].
Qed.

Lemma chars_app a b : String.list_ascii_of_string (a ++ b) = (String.list_ascii_of_string a ++ String.list_ascii_of_string b)%list.
Proof. induction a as [|c a IH]; simpl; [done|]. by rewrite IH. Qed.

Lemma chars_nil d : String.list_ascii_of_string d = [] -> d = "".
Proof. by destruct d. Qed.

Lemma split_plain d : forall skip piece ws rest,
  (skip = true -> piece = [] /\ ws = []) ->
  Forall (fun c => isSpace c = false /\ isComma c = false) d -> d <> [] ->
  splitCommas skip piece ws (d ++ rest)
    = splitCommas false (reverse d ++ ws ++ piece) [] rest.
Proof.
  induction d as [|c d IH]; intros skip piece ws rest Hskip Hd Hne; [done|].
  apply Forall_cons in Hd as [[Hs Hc] Hd]. simpl. rewrite Hc, Hs.
  destruct d as [|c' d].
  - by rewrite reverse_singleton.
  - rewrite IH; [|done..]. f_equal.
    rewrite (reverse_cons (c' :: d) c), <- !app_assoc. done.
Qed.

Lemma split_blank_pre w : forall piece ws rest,
  blank w ->
  splitCommas false piece ws (w ++ rest)
    = splitCommas false piece (reverse w ++ ws) rest.
Proof.
  induction w as [|c w IH]; intros piece ws rest Hw; [done|].
  apply Forall_cons in Hw as [Hc Hw]. simpl.
  rewrite (space_not_comma c Hc), Hc, IH by done.
  by rewrite reverse_cons, <- app_assoc.
Qed.

Lemma split_blank_post w rest :
  blank w -> splitCommas true [] [] (w ++ rest) = splitCommas true [] [] rest.
Proof.
  induction 1 as [|c w Hc _ IH]; [done|]. simpl.
  by rewrite (space_not_comma c Hc), Hc.
Qed.

Lemma joinWith_cons sep d d' ds :
  joinWith sep (d :: d' :: ds) = d ++ sep ++ joinWith sep (d' :: ds).
Proof. done. Qed.

Lemma plainName_chars d :
  plainName d ->
  String.list_ascii_of_string d <> [] /\ Forall (fun c => isSpace c = false /\ isComma c = false) (String.list_ascii_of_string d).
Proof. intros [Hne Hall]. split; [|done]. intros H. by apply chars_nil in H. Qed.

Lemma split_join pre post ds : forall skip,
  blank (String.list_ascii_of_string pre) -> blank (String.list_ascii_of_string post) ->
  Forall plainName ds -> ds <> [] ->
  splitCommas skip [] [] (String.list_ascii_of_string (joinWith (pre ++ "," ++ post) ds))
    = String.list_ascii_of_string <$> ds.
Proof.
  intros skip Hpre Hpost Hds. revert skip.
  induction Hds as [|d ds Hd Hds IH]; intros skip Hne; [done|].
  destruct (plainName_chars d Hd) as [Hdne Hdall].
  destruct ds as [|d' ds].
  - simpl. rewrite <- (app_nil_r (String.list_ascii_of_string d)).
    rewrite split_plain. 2: { intros _. split; reflexivity. } 2: done. 2: done.
    simpl. by rewrite !app_nil_r, reverse_involutive.
  - rewrite joinWith_cons, !chars_app.
    rewrite split_plain. 2: { intros _. split; reflexivity. } 2: done. 2: done.
    rewrite !app_nil_r, <- !app_assoc.
    rewrite split_blank_pre by done. simpl. rewrite reverse_involutive.
    rewrite split_blank_post by done. rewrite IH; done.
Qed.

Lemma joinWith_trimmed sep ds :
  Forall plainName ds -> ds <> [] ->
  String.list_ascii_of_string (joinWith sep ds) <> [] /\ trimmed (String.list_ascii_of_string (joinWith sep ds)).
Proof.
  induction 1 as [|d ds Hd Hds IH]; intros Hne; [done|].
  destruct (plainName_chars d Hd) as [Hdne Hdall].
  assert (forall c, c ∈ String.list_ascii_of_string d -> isSpace c = false) as Hins.
  { intros c Hc. by apply (proj1 (Forall_forall _ _) Hdall c) in Hc as [? _]. }
  destruct ds as [|d' ds].
  - simpl. split; [done|]. split; intros c Hc; apply Hins.
    + by apply head_Some_elem_of.
    + by apply last_Some_elem_of.
  - destruct IH as [IHne [_ IHlast]]; [done|].
    rewrite joinWith_cons, !chars_app. split.
    + intros H. apply app_eq_nil in H as [? _]. done.
    + split.
      * intros c Hc. apply Hins. apply head_Some_elem_of.
        destruct (String.list_ascii_of_string d); [done|]. done.
      * intros c. rewrite app_assoc, last_app.
        destruct (last (String.list_ascii_of_string (joinWith sep (d' :: ds)))) as [c'|] eqn:E.
        -- intros [= <-]. by apply IHlast.
        -- by apply last_None in E.
Qed.

Lemma text_chars_list (ds : list string) : String.string_of_list_ascii <$> (String.list_ascii_of_string <$> ds) = ds.
Proof.
  induction ds as [|d ds IH]; [done|].
  rewrite !fmap_cons, String.string_of_list_ascii_of_string. f_equal. apply IH.
Qed.

(** X19. For a preference value that is empty or all white space the set
    of domains is empty (not the set holding the empty name); for any
    value, no name in the set holds a comma or starts or ends with white
    space. *)
Theorem domainsOf_members value :
  asciiOnly value ->
  (blank (String.list_ascii_of_string value) -> domainsOf value = ∅) /\
  (forall d, d ∈ domainsOf value ->
     commaFree (String.list_ascii_of_string d) /\ trimmed (String.list_ascii_of_string d)).
Proof.
  intros _. split.
  { intros Hb. unfold domainsOf. by rewrite (trim_blank _ Hb). }
  intros d Hd. unfold domainsOf in Hd.
  destruct (trim_decompose (String.list_ascii_of_string value))
    as (lead & trail & Hlead & Htrail & Heq & [Hhd Hlast]).
  destruct (trim (String.list_ascii_of_string value)) as [|c0 l0] eqn:E.
  { by apply not_elem_of_empty in Hd. }
  apply elem_of_list_to_set in Hd.
  apply list_elem_of_fmap in Hd as (p & -> & Hp).
  rewrite String.list_ascii_of_string_of_list_ascii.
  revert p Hp. apply Forall_forall.
  apply splitCommas_tidy; try done.
  - constructor.
  - constructor.
Qed.

(** X20. A preference that lists plain names (not empty, without white
    space or comma) separated by commas, with any white space around the
    commas and around the whole, gives exactly the set of these names. *)
Theorem domainsOf_joined lead pre post trail ds :
  blank (String.list_ascii_of_string lead) -> blank (String.list_ascii_of_string pre) ->
  blank (String.list_ascii_of_string post) -> blank (String.list_ascii_of_string trail) ->
  Forall plainName ds -> ds <> [] ->
  asciiOnly (lead ++ joinWith (pre ++ "," ++ post) ds ++ trail) ->
  domainsOf (lead ++ joinWith (pre ++ "," ++ post) ds ++ trail)
    = list_to_set ds.
Proof.
  intros Hlead Hpre Hpost Htrail Hds Hne _. unfold domainsOf.
  destruct (joinWith_trimmed (pre ++ "," ++ post) ds Hds Hne) as [Hbody Htrim].
  rewrite !chars_app, (trim_framed _ _ _ Hlead Htrail Htrim).
  destruct (String.list_ascii_of_string (joinWith (pre ++ "," ++ post) ds)) as [|c l] eqn:E; [done|].
  rewrite <- E, split_join by done. by rewrite text_chars_list.
Qed.

(** ** More invariants of the ledger and of the policy *)

Lemma shouldLoad_track_keeps_nonempty tracker site :
  preserves noEmptyEntry (shouldLoad_track tracker site).
Proof.
  intros s r s' Hrun Hs.
  destruct (tracked_or_not s tracker site) as [Hold|Hnew].
  { rewrite (shouldLoad_track_known _ _ _ Hold) in Hrun. by injection Hrun as _ <-. }
  rewrite (shouldLoad_track_new _ _ _ Hnew) in Hrun.
  destruct (updateAutoBlock tracker (recorded tracker site s)) as [r1 s1] eqn:E.
  assert (s' = s1) as -> by (destruct r1; by injection Hrun as _ <-).
  assert (noEmptyEntry (recorded tracker site s)) as Hrec.
  { intros t sites. unfold recorded; fields.
    destruct (decide (tracker = t)) as [->|Hne].
    - rewrite getProp_setProp_eq. intros [= <-]. set_solver.
    - rewrite getProp_setProp_ne by done. apply Hs. }
  exact (updateAutoBlock_keeps_fields trackers
    (fun o => forall t sites, getProp t o = Some sites -> sites <> ∅)
    tracker (fun _ _ => eq_refl) _ _ _ E Hrec).
Qed.

Lemma step_keeps_nonempty e s : noEmptyEntry s -> noEmptyEntry (step s e).
Proof.
  intros Hs.
  assert (forall A (m : JS A),
    preserves noEmptyEntry m -> noEmptyEntry (m s).2) as Hkeep.
  { intros A m Hm. by eapply Hm; [apply surjective_pairing|]. }
  assert (forall A (m : JS A),
    (forall Q : list (string * gset string) -> Prop,
       preserves (fun s => Q (trackers s)) m) ->
    preserves noEmptyEntry m) as Hfields.
  { intros A m Hm.
    apply (Hm (fun o => forall t sites, getProp t o = Some sites -> sites <> ∅)). }
  destruct e; cbn [step]; try exact Hs; apply Hkeep.
  { unfold shouldLoad, shouldLoad_try. keeps.
    - apply shouldLoad_track_keeps_nonempty.
    - apply Hfields. intros Q.
      by apply (shouldLoad_block_keeps_fields trackers Q). }
  all: apply Hfields; intros Q;
    unfold unCookier, set_threshold, toggle_block, emit_update_block, reset,
      updateAllAutoBlocked, onReload, elapse;
    keeps; try (by apply preserves_modify);
    first [ by apply (updateEach_keeps_fields trackers Q)
          | by apply (fireDue_keeps_fields trackers Q) ].
Qed.

(** X21. A tracker is entered in the ledger together with its first site:
    if no tracker of the ledger has an empty set of sites, none has after
    any events of a session, so a known tracker always counts at least one
    site. *)
Theorem ledger_entries_never_empty s events tracker sites :
  noEmptyEntry s ->
  getProp tracker (trackers (run s events)) = Some sites ->
  sites <> ∅ /\ 1 <= countSites (run s events) tracker.
Proof.
  intros Hs Hentry.
  assert (noEmptyEntry (run s events)) as Hrun.
  { clear Hentry. revert s Hs.
    induction events as [|e events IH]; intros s Hs; [done|].
    simpl. by apply IH, step_keeps_nonempty. }
  pose proof (Hrun tracker sites Hentry) as Hne. split; [done|].
  unfold countSites. rewrite Hentry. simpl.
  assert (size sites <> 0%nat); [|lia].
  intros Hz. by apply size_empty_inv, leibniz_equiv in Hz.
Qed.

(** X22. For a tracker whose stored entry is not user-set and is the value
    the policy computes in the present state, setting a threshold that is
    not higher never lowers the level. *)
Theorem lower_threshold_upgrades s tracker threshold :
  originOf (getBlocked s tracker) = Auto ->
  newBlockedFor tracker s = (Normal (getBlocked s tracker), s) ->
  threshold <= autoBlockThreshold s ->
  levelRank (levelOf (getBlocked s tracker))
    <= levelRank (levelOf (getBlocked (set_threshold threshold s).2 tracker)).
Proof.
  intros Ho Hcur Hle.
  rewrite newBlockedFor_eq in Hcur. injection Hcur as Hcur.
  rewrite set_threshold_eq.
  set (s1 := set_autoBlockThreshold threshold s).
  destruct (updateEach true (objectKeys (trackers s)) s1) as [r s'] eqn:Hrun.
  pose proof (updateEach_reevaluated s1 true _ s1 _ _ Hrun (reevaluated_refl s1))
    as [_ Hent].
  simpl. destruct (Hent tracker) as [->|[_ Hnew]]; [done|].
  apply (newBlockedOf_antitone s1 tracker (autoBlockThreshold s)); [done..|].
  by rewrite (newBlockedOf_inputs s).
Qed.

Lemma newBlockedOf_recorded tracker site s v0 :
  tracker <> site ->
  newBlockedOf s tracker = Normal v0 ->
  exists v1, newBlockedOf (recorded tracker site s) tracker = Normal v1 /\
    levelRank (levelOf v0) <= levelRank (levelOf v1).
Proof.
  intros Hne. unfold newBlockedOf, recorded, CONNECTION_MULTIPLIER; fields.
  destruct (countCookiesFromHost s tracker) as [n|]; [|done].
  destruct (bool_decide (0 < n)%nat); [|intros [= <-]; by eexists].
  rewrite getProp_setProp_eq.
  destruct (getProp tracker (trackers s)) as [sites|]; [|done]. simpl.
  intros [= <-]. eexists. split; [done|].
  assert (size sites <= size ({[site]} ∪ sites))%nat as Hsize
    by (apply subseteq_size; set_solver).
  assert (bool_decide (tracker ∈ {[site]} ∪ allTracked s)
          = bool_decide (tracker ∈ allTracked s)) as ->.
  { apply bool_decide_ext. rewrite elem_of_union, elem_of_singleton.
    split; [intros [?|?]; done|by right]. }
  repeat case_bool_decide; simpl; lia.
Qed.

(** X23. A request never lowers the automatic level of its tracker: when
    the stored entry is not user-set and is the value the policy computes
    before the request, the level after the request is the same or higher,
    since the request can only add a site, and the site is not the tracker
    itself. *)
Theorem request_never_lowers r s tracker site :
  thirdParty s r tracker site ->
  originOf (getBlocked s tracker) = Auto ->
  newBlockedFor tracker s = (Normal (getBlocked s tracker), s) ->
  levelRank (levelOf (getBlocked s tracker))
    <= levelRank (levelOf (getBlocked (shouldLoad r s).2 tracker)).
Proof.
  intros Hreq Ho Hcur.
  rewrite newBlockedFor_eq in Hcur. injection Hcur as Hcur.
  assert (isNumber (getBlocked s tracker) = false) as Hnum.
  { unfold originOf in Ho. by destruct (isNumber _). }
  assert (tracker <> site) as Hne by (by destruct Hreq as (_ & _ & _ & _ & ? & _)).
  rewrite (shouldLoad_thirdParty _ _ _ _ Hreq).
  assert (levelRank (levelOf (getBlocked s tracker))
    <= levelRank (levelOf (getBlocked (shouldLoad_track tracker site s).2 tracker)))
    as Htrack.
  { destruct (tracked_or_not s tracker site) as [Hold|Hnew].
    { by rewrite (shouldLoad_track_known _ _ _ Hold). }
    rewrite (shouldLoad_track_new _ _ _ Hnew).
    destruct (newBlockedOf_recorded tracker site s _ Hne Hcur) as (v1 & Hv1 & Hrank).
    rewrite updateAutoBlock_eq.
    assert (getBlocked (recorded tracker site s) tracker = getBlocked s tracker)
      as -> by done.
    rewrite Hnum, Hv1.
    destruct (looseEq v1 (getBlocked s tracker)) eqn:E; cbn [fst snd].
    - assert (getBlocked (recorded tracker site s) tracker = getBlocked s tracker)
        as -> by done. lia.
    - by rewrite getBlocked_set_eq. }
  destruct (shouldLoad_track tracker site s) as [[[]|] s1]; simpl in *; [|done].
  rewrite shouldLoad_block_eq.
  destruct (looseEq _ _ || _); [done|]. by destruct (truthy _).
Qed.

(** ** The further statements at sample sessions *)

Lemma ledger_never_shrinks_witness :
  tracked (run nineSitesCookied [ESetThreshold 1; EReset]) "t.example" "s0.example".
Proof.
  assert (tracked nineSitesCookied "t.example" "s0.example") as H
    by by_computation.
  exact (proj1 (ledger_never_shrinks nineSitesCookied [ESetThreshold 1; EReset])
           "t.example" "s0.example" H).
Defined.

Lemma ledger_sites_in_allTracked_witness :
  "s0.example" ∈ allTracked
    (run (main None None None ∅ ∅ (cookiesOnly "t.example" 3))
         (metOn "t.example" tenSites)).
Proof.
  assert (tracked
    (run (main None None None ∅ ∅ (cookiesOnly "t.example" 3))
         (metOn "t.example" tenSites)) "t.example" "s0.example") as H
    by by_computation.
  exact (ledger_sites_in_allTracked None None None ∅ ∅
           (cookiesOnly "t.example" 3) (metOn "t.example" tenSites)
           "t.example" "s0.example" H).
Defined.

Lemma shouldLoad_policy_failure_witness :
  shouldLoad pixelRequest cookieServiceDown
    = (Normal ACCEPT, recorded "t.example" "s0.example" cookieServiceDown).
Proof.
  assert (thirdParty cookieServiceDown pixelRequest "t.example" "s0.example") as H1.
  { apply embedded_thirdParty; [vm_compute; reflexivity|discriminate|by_computation]. }
  assert (~ tracked cookieServiceDown "t.example" "s0.example") as H2
    by by_computation.
  assert (isNumber (getBlocked cookieServiceDown "t.example") = false) as H3
    by (vm_compute; reflexivity).
  assert (countCookiesFromHost cookieServiceDown "t.example" = None) as H4
    by (vm_compute; reflexivity).
  exact (proj1 (shouldLoad_policy_failure _ _ _ _ H1 H2 H3 H4)).
Defined.

Lemma shouldLoad_rejects_only_blocked_witness :
  exists tracker site,
    thirdParty tenSitesCookied pixelRequest tracker site /\
    truthy (getBlocked (shouldLoad pixelRequest tenSitesCookied).2 tracker) = true /\
    getBlocked (shouldLoad pixelRequest tenSitesCookied).2 tracker
      <> AUTO_BLOCK_COOKIE /\
    (tracker ∉ potentialTrackers tenSitesCookied) /\
    tracked (shouldLoad pixelRequest tenSitesCookied).2 tracker site /\
    unCookieNext (shouldLoad pixelRequest tenSitesCookied).2
      = unCookieNext tenSitesCookied.
Proof.
  assert ((shouldLoad pixelRequest tenSitesCookied).1 = Normal REJECT_REQUEST) as H
    by (vm_compute; reflexivity).
  exact (shouldLoad_rejects_only_blocked pixelRequest tenSitesCookied H).
Defined.

Lemma shouldLoad_frame_witness :
  getBlocked (shouldLoad pixelRequest nineSitesCookied).2 "x.example"
    = getBlocked nineSitesCookied "x.example".
Proof.
  assert (baseDomain pixelRequest <> Some "x.example") as H by discriminate.
  exact (proj2 (proj2 (shouldLoad_frame pixelRequest nineSitesCookied))
           "x.example" H).
Defined.

Lemma potential_tracker_uncookied_witness :
  (shouldLoad pixelRequest potentialSession).1 = Normal ACCEPT /\
  (unCookier (spec pixelRequest) (shouldLoad pixelRequest potentialSession).2).1
    = Normal true /\
  unCookieNext
    (unCookier (spec pixelRequest) (shouldLoad pixelRequest potentialSession).2).2
    = None.
Proof.
  assert (thirdParty potentialSession pixelRequest "t.example" "s0.example") as H1.
  { apply embedded_thirdParty; [vm_compute; reflexivity|discriminate|by_computation]. }
  assert ("t.example" ∈ potentialTrackers potentialSession) as H2 by by_computation.
  assert (tracked potentialSession "t.example" "s0.example") as H3 by by_computation.
  exact (potential_tracker_uncookied _ _ _ _ H1 H2 (or_introl H3)).
Defined.

Lemma updateAutoBlock_returns_changed_witness :
  getBlocked (updateAutoBlock "t.example" lateCookies).2 "x.example"
    = getBlocked lateCookies "x.example".
Proof.
  assert ("x.example" <> "t.example") as H by discriminate.
  exact (proj2 (proj2 (proj2 (updateAutoBlock_returns_changed "t.example" lateCookies)))
           "x.example" H).
Defined.

Lemma cookiesOnly_answers s host n :
  countCookiesFromHost s = cookiesOnly host n ->
  forall t, t ∈ objectKeys (trackers s) -> is_Some (countCookiesFromHost s t).
Proof. intros -> t _. unfold cookiesOnly. by eexists. Qed.

Lemma set_threshold_reevaluates_witness :
  exists s',
    set_threshold 6 tenSitesCookied = (Normal tt, s') /\
    autoBlockThreshold s' = 6 /\
    (forall t, t ∈ objectKeys (trackers tenSitesCookied) ->
       isNumber (getBlocked tenSitesCookied t) = false ->
       newBlockedFor t s' = (Normal (getBlocked s' t), s')) /\
    (forall t, t ∉ objectKeys (trackers tenSitesCookied) \/
               isNumber (getBlocked tenSitesCookied t) = true ->
       getBlocked s' t = getBlocked tenSitesCookied t).
Proof.
  assert (countCookiesFromHost tenSitesCookied = cookiesOnly "t.example" 3) as H
    by (vm_compute; reflexivity).
  exact (set_threshold_reevaluates 6 tenSitesCookied
           (cookiesOnly_answers _ _ _ H)).
Defined.

Lemma set_threshold_twice_witness :
  set_threshold 6 (set_threshold 6 tenSitesCookied).2
    = (Normal tt, (set_threshold 6 tenSitesCookied).2).
Proof.
  assert (set_threshold 6 tenSitesCookied
          = (Normal tt, (set_threshold 6 tenSitesCookied).2)) as H
    by (vm_compute; reflexivity).
  exact (set_threshold_twice 6 tenSitesCookied _ H).
Defined.

Lemma reset_clears_overrides_witness :
  (reset blockedByHand).1 = Normal tt /\
  forall t, t ∈ objectKeys (trackers blockedByHand) ->
    newBlockedFor t (reset blockedByHand).2
      = (Normal (getBlocked (reset blockedByHand).2 t), (reset blockedByHand).2).
Proof.
  assert (countCookiesFromHost blockedByHand = cookiesOnly "t.example" 3) as H
    by (vm_compute; reflexivity).
  exact (proj2 (proj2 (proj2 (proj2 (reset_clears_overrides blockedByHand))))
           (cookiesOnly_answers _ _ _ H)).
Defined.

Lemma toggle_block_flips_witness :
  getBlocked (toggle_block "t.example" nineSitesCookied).2 "x.example"
    = getBlocked nineSitesCookied "x.example".
Proof.
  assert ("x.example" <> "t.example") as H by discriminate.
  exact (proj1 (proj2 (proj2 (toggle_block_flips "t.example" nineSitesCookied)))
           "x.example" H).
Defined.

Lemma manual_block_rejects_witness :
  (shouldLoad pixelRequest
     (run (toggle_block "t.example" cookiedProfile).2
          (metOn "t.example" tenSites))).1
  = Normal REJECT_REQUEST.
Proof.
  assert (truthy (getBlocked cookiedProfile "t.example") = false) as H1
    by (vm_compute; reflexivity).
  assert (Forall (fun e => userAction e = false) (metOn "t.example" tenSites)) as H2
    by (repeat constructor).
  assert (thirdParty
    (run (toggle_block "t.example" cookiedProfile).2 (metOn "t.example" tenSites))
    pixelRequest "t.example" "s0.example") as H3.
  { apply embedded_thirdParty; [vm_compute; reflexivity|discriminate|by_computation]. }
  assert ("t.example" ∉ potentialTrackers
    (run (toggle_block "t.example" cookiedProfile).2 (metOn "t.example" tenSites)))
    as H4 by by_computation.
  exact (proj1 (manual_block_rejects "t.example" cookiedProfile
           (metOn "t.example" tenSites) pixelRequest "s0.example" H1 H2 H3 H4)).
Defined.

Lemma manual_unblock_accepts_witness :
  (shouldLoad pixelRequest
     (run (toggle_block "t.example" tenSitesCookied).2 [ESetThreshold 1])).1
  = Normal ACCEPT.
Proof.
  assert (truthy (getBlocked tenSitesCookied "t.example") = true) as H1
    by (vm_compute; reflexivity).
  assert (Forall (fun e => userAction e = false) [ESetThreshold 1]) as H2
    by (repeat constructor).
  assert (thirdParty
    (run (toggle_block "t.example" tenSitesCookied).2 [ESetThreshold 1])
    pixelRequest "t.example" "s0.example") as H3.
  { apply embedded_thirdParty; [vm_compute; reflexivity|discriminate|by_computation]. }
  exact (proj1 (manual_unblock_accepts "t.example" tenSitesCookied
           [ESetThreshold 1] pixelRequest "s0.example" H1 H2 H3)).
Defined.

Lemma single_reload_window_witness :
  acceptForReload (run (step tenSitesCookied EReload) afterReload) = false /\
  timeouts (run (step tenSitesCookied EReload) afterReload) = [].
Proof.
  assert (timeouts tenSitesCookied = []) as H1 by (vm_compute; reflexivity).
  assert (Forall noReload afterReload) as H2.
  { repeat (constructor; [simpl; first [exact I | lia]|]). constructor. }
  assert (RELOAD_AUTO_ACCEPT_DURATION <= elapsed afterReload) as H3
    by (vm_compute; discriminate).
  exact (proj2 (single_reload_window tenSitesCookied afterReload H1 H2) H3).
Defined.

Lemma unload_drops_single_site_trackers_witness :
  unload_trackers nineSitesCookied
    = (Normal tt,
       set_trackers (withoutSingles (trackers nineSitesCookied)) nineSitesCookied).
Proof.
  assert (uniqueKeys nineSitesCookied) as H by by_computation.
  exact (proj1 (unload_drops_single_site_trackers nineSitesCookied H)).
Defined.

Lemma restart_forgets_single_sites_witness :
  trackers (restart nineSitesCookied) = withoutSingles (trackers nineSitesCookied).
Proof.
  assert (uniqueKeys nineSitesCookied) as H by by_computation.
  exact (proj1 (restart_forgets_single_sites nineSitesCookied H)).
Defined.

Lemma domainsOf_members_witness :
  commaFree (String.list_ascii_of_string "b.org") /\
  trimmed (String.list_ascii_of_string "b.org").
Proof.
  assert (asciiOnly " a.com , b.org ") as H1 by by_computation.
  assert ("b.org" ∈ domainsOf " a.com , b.org ") as H2 by by_computation.
  exact (proj2 (domainsOf_members " a.com , b.org " H1) "b.org" H2).
Defined.

Lemma domainsOf_joined_witness :
  domainsOf (" " ++ joinWith (" " ++ "," ++ "  ") ["a.com"; "b.org"] ++ " ")
    = list_to_set ["a.com"; "b.org"].
Proof.
  assert (blank (String.list_ascii_of_string " ")) as H1 by by_computation.
  assert (blank (String.list_ascii_of_string "  ")) as H2 by by_computation.
  assert (Forall plainName ["a.com"; "b.org"]) as H3.
  { repeat constructor; try discriminate. }
  assert (["a.com"; "b.org"] <> []) as H4 by discriminate.
  assert (asciiOnly
    (" " ++ joinWith (" " ++ "," ++ "  ") ["a.com"; "b.org"] ++ " ")) as H5
    by by_computation.
  exact (domainsOf_joined " " " " "  " " " ["a.com"; "b.org"] H1 H1 H2 H1 H3 H4 H5).
Defined.

Lemma ledger_entries_never_empty_witness :
  1 <= countSites (run freshProfile (metOn "t.example" ["s0.example"])) "t.example".
Proof.
  assert (noEmptyEntry freshProfile) as H1 by (by intros t sites).
  assert (getProp "t.example"
    (trackers (run freshProfile (metOn "t.example" ["s0.example"])))
    = Some {["s0.example"]}) as H2 by (vm_compute; reflexivity).
  exact (proj2 (ledger_entries_never_empty freshProfile
           (metOn "t.example" ["s0.example"]) "t.example" _ H1 H2)).
Defined.

Lemma lower_threshold_upgrades_witness :
  levelRank (levelOf (getBlocked nineSitesCookied "t.example"))
    <= levelRank (levelOf (getBlocked (set_threshold 3 nineSitesCookied).2 "t.example")).
Proof.
  assert (originOf (getBlocked nineSitesCookied "t.example") = Auto) as H1
    by (vm_compute; reflexivity).
  assert (newBlockedFor "t.example" nineSitesCookied
    = (Normal (getBlocked nineSitesCookied "t.example"), nineSitesCookied)) as H2
    by (vm_compute; reflexivity).
  assert (3 <= autoBlockThreshold nineSitesCookied) as H3
    by (vm_compute; discriminate).
  exact (lower_threshold_upgrades nineSitesCookied "t.example" 3 H1 H2 H3).
Defined.

Lemma request_never_lowers_witness :
  levelRank (levelOf (getBlocked nineSitesCookied "t.example"))
    <= levelRank (levelOf (getBlocked
         (shouldLoad (embedded "t.example" "s9.example" "https://t.example/px")
            nineSitesCookied).2 "t.example")).
Proof.
  assert (thirdParty nineSitesCookied
    (embedded "t.example" "s9.example" "https://t.example/px")
    "t.example" "s9.example") as H1.
  { apply embedded_thirdParty; [vm_compute; reflexivity|discriminate|by_computation]. }
  assert (originOf (getBlocked nineSitesCookied "t.example") = Auto) as H2
    by (vm_compute; reflexivity).
  assert (newBlockedFor "t.example" nineSitesCookied
    = (Normal (getBlocked nineSitesCookied "t.example"), nineSitesCookied)) as H3
    by (vm_compute; reflexivity).
  exact (request_never_lowers _ _ _ _ H1 H2 H3).
Defined.
